(** * Time-series encoding test: point generator, binary encoders, CSV

    A shallow embedding of the functions of
    [src/unnamed/part_000] (the richer server: JSON, MessagePack, CSV,
    Protocol Buffers and the two binary layouts) and of
    [src/encoding-time-series-data.ts] (the server with JSON and the
    binary layouts only), over a model of the parts of the JavaScript and
    Node.js runtime they call: IEEE-754 doubles, [Math.round],
    [Math.pow], [Math.random], [Date], [Array] and [Buffer]. *)

From Stdlib Require Import ZArith Lia List Bool String Ascii.
From Stdlib Require Import Strings.Byte.
From Stdlib Require Import Floats.SpecFloat.
From stdpp Require Import base list.

Local Open Scope Z_scope.

(** ** JavaScript numbers

    A JavaScript [number] is an IEEE-754 binary64 value.  The Standard
    Library's [spec_float] is that format's specification: signed zeros,
    infinities, one NaN (JavaScript cannot tell NaNs apart) and finite
    values [(-1)^s * m * 2^e]; [valid_binary] says that a finite value is
    in canonical form, so a double is a [spec_float] that is valid. *)

Definition prec : Z := 53.
Definition emax : Z := 1024.

Definition number : Type := spec_float.

Definition valid_number (x : number) : bool := valid_binary prec emax x.

(** [+], [-], [*] and [/] on numbers, rounding to nearest, ties to even. *)
Definition fadd : number -> number -> number := SFadd prec emax.
Definition fsub : number -> number -> number := SFsub prec emax.
Definition fmul : number -> number -> number := SFmul prec emax.
Definition fdiv : number -> number -> number := SFdiv prec emax.
Definition fltb : number -> number -> bool := SFltb.

(** The number an integer literal or an integer result denotes: the
    nearest double (the integer itself below [2^53]). *)
Definition Z2number (z : Z) : number := binary_normalize prec emax z 0 false.

(** The literal [0.5]. *)
Definition lit_0_5 : number := S754_finite false 4503599627370496 (-53).

(** The double of a positive integer below [2^53], written out: the
    mantissa shifted up to 53 bits.  [Z2number] computes it
    ([Z2number_canon] below). *)
Definition canon (z : Z) : number :=
  match z with
  | Zpos p => S754_finite false (Pos.shiftl p (Z.to_N (52 - Z.log2 z)))
                          (Z.log2 z - 52)
  | _ => S754_nan
  end.

(** [Math.round(x)]: a number that is not finite or is integral is
    returned as it is; otherwise the integral number closest to [x], the
    one closer to [+Infinity] on a tie, that is [floor(x + 1/2)] computed
    exactly; a zero result keeps the sign of [x] ([-0] for
    [-0.5 <= x < 0], [+0] for [0 < x < 0.5]). *)
Definition Math_round (x : number) : number :=
  match x with
  | S754_finite s m e =>
      if 0 <=? e then x
      else
        let q := 2 ^ (- e) in
        let r := (2 * cond_Zopp s (Zpos m) + q) / (2 * q) in
        if r =? 0 then S754_zero s else Z2number r
  | _ => x
  end.

(** [Math.pow(10, d)] for an integer [d].  ECMAScript asks for an
    implementation-approximated value only: where [10^d] is no
    double, engines differ in the last place, and V8's result is not
    always the nearest double ([Math.pow(10, 26)] is one unit in the
    last place below it).  So the engine's function is an input of the
    model, as the draws of [Math.random] are. *)
Definition pow10 : Type := Z -> number.

Definition Math_pow10 (pw : pow10) (d : Z) : number := pw d.

(** An instance for the examples.  For [0 <= d <= 22] the power [10^d]
    is a double and [Math.pow] returns it ([Math.pow(10, 0)] is 1 by
    ECMAScript's own rule); the examples use 0, 1 and 2.  Outside that
    range, where engines differ, the instance is NaN and no example
    goes there. *)
Definition exact_pow10 : pow10 := fun d =>
  if (0 <=? d) && (d <=? 22) then Z2number (10 ^ d) else S754_nan.

(** [Math.random()]: the draws of one run are an input, a stream of
    numbers in [0, 1); the state is the index of the next draw. *)
Definition draws : Type := nat -> number.

Definition Math_random (rs : draws) (next : nat) : number * nat :=
  (rs next, S next).

(** ** Exceptions

    The errors the modelled calls throw: a [RangeError], a [TypeError],
    and Node's [Error] with code [ERR_STRING_TOO_LONG]. *)

Inductive exn : Type := RangeError | TypeError | ERR_STRING_TOO_LONG.

Inductive result (A : Type) : Type :=
  | Ok (a : A)
  | Throw (e : exn).
Arguments Ok {A} a.
Arguments Throw {A} e.

#[global] Instance result_ret : MRet result := fun A a => Ok a.
#[global] Instance result_bind : MBind result := fun A B f m =>
  match m with
  | Ok a => f a
  | Throw e => Throw e
  end.

(** [for (let i = start; i < start + count; i++) body]. *)
Fixpoint for_loop {St : Type} (count i : nat)
    (body : nat -> St -> result St) (s : St) : result St :=
  match count with
  | O => Ok s
  | S count' => s' ← body i s; for_loop count' (S i) body s'
  end.

(** ** Date

    A [Date] holds a time value: milliseconds since the epoch, an integral
    number of magnitude at most 8.64e15, or NaN (an invalid date). *)

Record Date : Type := mkDate { getTime : number }.

Definition maxTimeValue : Z := 8640000000000000.

(** [ToIntegerOrInfinity] of a finite number, as a number: truncation
    toward zero, [-0] and fractions below one becoming [+0]. *)
Definition truncate (t : number) : number :=
  match t with
  | S754_finite s m e =>
      if 0 <=? e then t
      else
        let r := Zpos m / 2 ^ (- e) in
        if r =? 0 then S754_zero false else Z2number (cond_Zopp s r)
  | S754_zero _ => S754_zero false
  | _ => t
  end.

Definition TimeClip (t : number) : number :=
  match t with
  | S754_nan | S754_infinity _ => S754_nan
  | _ => if fltb (Z2number maxTimeValue) (SFabs t) then S754_nan
         else truncate t
  end.

(** [new Date(t)] for a number [t]. *)
Definition new_Date (t : number) : Date := mkDate (TimeClip t).

(** Days from 1970-01-01 to the given day of the proleptic Gregorian
    calendar ([MakeDay]). *)
Definition days_from_civil (y m d : Z) : Z :=
  let y' := if m <=? 2 then y - 1 else y in
  let era := y' / 400 in
  let yoe := y' - era * 400 in
  let doy := (153 * (if 2 <? m then m - 3 else m + 9) + 2) / 5 + d - 1 in
  let doe := yoe * 365 + yoe / 4 - yoe / 100 + doy in
  era * 146097 + doe - 719468.

Definition msPerDay : Z := 86400000.

(** [new Date('YYYY-MM-DD')]: the date-only form is midnight UTC. *)
Definition new_Date_ymd (y m d : Z) : Date :=
  new_Date (Z2number (days_from_civil y m d * msPerDay)).

(** ** Array

    An array is its list of slots; a slot of [new Array(len)] that was
    never assigned is a hole. *)

Abbreviation Array A := (list (option A)).

(** [new Array(len)] for an integer [len]: a RangeError unless
    [0 <= len < 2^32]. *)
Definition new_Array {A : Type} (len : Z) : result (Array A) :=
  if (0 <=? len) && (len <? 2 ^ 32) then Ok (replicate (Z.to_nat len) None)
  else Throw RangeError.

(** [a[i] = v]: past the end the array grows, leaving holes. *)
Definition Array_set {A : Type} (i : nat) (v : A) (a : Array A) : Array A :=
  if (i <? length a)%nat then <[i := Some v]> a
  else a ++ replicate (i - length a)%nat None ++ [Some v].

(** [a[i]]: [undefined] at a hole and out of range. *)
Definition Array_get {A : Type} (a : Array A) (i : nat) : option A :=
  mjoin (a !! i).

(** Reading a property of [undefined] throws a TypeError. *)
Definition defined {A : Type} (x : option A) : result A :=
  match x with
  | Some v => Ok v
  | None => Throw TypeError
  end.

(** The array of a list of elements, without holes. *)
Definition Array_of {A : Type} (l : list A) : Array A := map Some l.

(** ** Buffer

    A buffer is a list of bytes.  Each byte carries whether it was
    written since allocation: [Buffer.allocUnsafe] returns memory that
    holds whatever the pool held before. *)

Inductive cell : Type :=
  | Stale (b : byte)
  | Written (b : byte).

Definition cell_byte (c : cell) : byte :=
  match c with
  | Stale b | Written b => b
  end.

Definition is_written (c : cell) : bool :=
  match c with
  | Written _ => true
  | Stale _ => false
  end.

Abbreviation Buffer := (list cell).

(** [Buffer.allocUnsafe(size)]: [size] bytes of the pool as they are.
    The allocation itself is taken to succeed: [buffer.constants.MAX_LENGTH]
    is above sixteen times the length of any array. *)
Definition Buffer_allocUnsafe (pool : nat -> byte) (size : nat) : Buffer :=
  map (fun k => Stale (pool k)) (seq 0 size).

Definition byte_of_Z (z : Z) : byte :=
  match Byte.of_N (Z.to_N (z mod 256)) with
  | Some b => b
  | None => x00
  end.

Definition Z_of_byte (b : byte) : Z := Z.of_N (Byte.to_N b).

(** The IEEE-754 binary64 bit pattern: sign, 11 bits of biased exponent,
    52 bits of fraction. *)
Definition join_bits (s : bool) (E F : Z) : Z :=
  (if s then 2 ^ 63 else 0) + E * 2 ^ 52 + F.

Definition bits_of_number (x : number) : Z :=
  match x with
  | S754_zero s => join_bits s 0 0
  | S754_infinity s => join_bits s 2047 0
  | S754_nan => join_bits false 2047 (2 ^ 51)
  | S754_finite s m e =>
      if 2 ^ 52 <=? Zpos m then join_bits s (e + 1075) (Zpos m - 2 ^ 52)
      else join_bits s 0 (Zpos m)
  end.

Definition number_of_bits (w : Z) : number :=
  let s := 2 ^ 63 <=? w in
  let E := (w / 2 ^ 52) mod 2 ^ 11 in
  let F := w mod 2 ^ 52 in
  if E =? 0 then
    match F with
    | Zpos m => S754_finite s m (-1074)
    | _ => S754_zero s
    end
  else if E =? 2047 then
    if F =? 0 then S754_infinity s else S754_nan
  else
    match F + 2 ^ 52 with
    | Zpos m => S754_finite s m (E - 1075)
    | _ => S754_nan
    end.

(** Eight bytes, most significant first. *)
Definition bytesBE (w : Z) : list byte :=
  map (fun k => byte_of_Z (w / 2 ^ (8 * k))) [7; 6; 5; 4; 3; 2; 1; 0].

Definition Z_of_bytesBE (bs : list byte) : Z :=
  fold_left (fun acc b => acc * 256 + Z_of_byte b) bs 0.

Definition doubleBE (x : number) : list byte := bytesBE (bits_of_number x).

(** [buf.writeDoubleBE(value, offset)]: a RangeError unless the eight
    bytes fit. *)
Definition writeDoubleBE (v : number) (offset : nat) (buf : Buffer)
    : result Buffer :=
  if (offset + 8 <=? length buf)%nat then
    Ok (take offset buf ++ map Written (doubleBE v) ++ drop (offset + 8) buf)
  else Throw RangeError.

(** [buf.readDoubleBE(offset)]. *)
Definition readDoubleBE (offset : nat) (buf : Buffer) : result number :=
  if (offset + 8 <=? length buf)%nat then
    Ok (number_of_bits
          (Z_of_bytesBE (map cell_byte (take 8 (drop offset buf)))))
  else Throw RangeError.

(** Base64 of RFC 4648, the encoding behind [buf.toString('base64')]:
    three bytes to four characters, the last group padded with [=]. *)
Definition base64_alphabet : string :=
  "ABCDEFGHIJKLMNOPQRSTUVWXYZabcdefghijklmnopqrstuvwxyz0123456789+/".

Definition base64_digit (v : Z) : ascii :=
  match String.get (Z.to_nat v) base64_alphabet with
  | Some c => c
  | None => "="%char
  end.

Fixpoint base64 (bs : list byte) : string :=
  match bs with
  | [] => EmptyString
  | [a] =>
      let w := Z_of_byte a * 16 in
      String (base64_digit (w / 64))
        (String (base64_digit (w mod 64)) "==")
  | [a; b] =>
      let w := (Z_of_byte a * 256 + Z_of_byte b) * 4 in
      String (base64_digit (w / 4096))
        (String (base64_digit ((w / 64) mod 64))
           (String (base64_digit (w mod 64)) "="))
  | a :: b :: c :: rest =>
      let w := Z_of_byte a * 65536 + Z_of_byte b * 256 + Z_of_byte c in
      String (base64_digit (w / 262144))
        (String (base64_digit ((w / 4096) mod 64))
           (String (base64_digit ((w / 64) mod 64))
              (String (base64_digit (w mod 64)) (base64 rest))))
  end.

(** [buffer.constants.MAX_STRING_LENGTH]: the longest string V8 makes
    on a 64-bit platform, [2^29 - 24] characters. *)
Definition MAX_STRING_LENGTH : Z := 536870888.

(** [buf.toString('base64')]: the base64 text of the buffer's bytes.
    The text has four characters for every three bytes, rounded up; Node
    throws an [Error] with code [ERR_STRING_TOO_LONG] instead of making
    a string longer than [MAX_STRING_LENGTH]. *)
Definition Buffer_toString_base64 (buf : Buffer) : result string :=
  if MAX_STRING_LENGTH <? 4 * ((Z.of_nat (length buf) + 2) / 3)
  then Throw ERR_STRING_TOO_LONG
  else Ok (base64 (map cell_byte buf)).

(** What a handler passes to [response.send]: a string or a buffer. *)
Inductive body : Type :=
  | Text (s : string)
  | Binary (b : Buffer).

(** [s.indexOf(pat)]: the least index at which [pat] occurs in [s], or
    -1. *)
Definition String_indexOf (s pat : string) : Z :=
  match String.index 0 pat s with
  | Some k => Z.of_nat k
  | None => -1
  end.

(** ** Points

    [interface Point { time: Date, value: number }], declared alike in
    both source files. *)

Record Point : Type := mkPoint { time : Date; value : number }.

(** The local variables of [generatePoints] that its loop changes, and
    the index of the next draw of [Math.random]. *)
Record gp_state : Type := mkGp {
  gp_time : Date;
  gp_randomValue : number;
  gp_next : nat;
  gp_output : Array Point
}.

(** [Array.prototype.map] with a callback that may throw: holes are
    skipped and stay holes. *)
Fixpoint Array_map {A B : Type} (f : A -> result B) (a : Array A)
    : result (Array B) :=
  match a with
  | [] => Ok []
  | None :: a' => bs ← Array_map f a'; Ok (None :: bs)
  | Some x :: a' => b ← f x; bs ← Array_map f a'; Ok (Some b :: bs)
  end.

(** [Array.prototype.join] on strings: a hole reads as the empty
    string. *)
Definition Array_join (sep : string) (a : Array string) : string :=
  String.concat sep (map (fun slot => default EmptyString slot) a).

Definition newline : string := String "010"%char EmptyString.

(** ** [src/unnamed/part_000] *)

Module Format1.

Definition millisecondsPerHour : number :=
  fmul (fmul (Z2number 1000) (Z2number 60)) (Z2number 60).

(** One turn of the loop of [generatePoints], lines 20 to 25. *)
Definition generatePoints_body (rs : draws) (power : number)
    (i : nat) (st : gp_state) : result gp_state :=
  let '(r, next) := Math_random rs (gp_next st) in
  let randomValue := fadd (gp_randomValue st) (fsub r lit_0_5) in
  let output :=
    Array_set i
      {| time := gp_time st;
         value := fdiv (Math_round (fmul randomValue power)) power |}
      (gp_output st) in
  let time := new_Date (fadd (getTime (gp_time st)) millisecondsPerHour) in
  Ok (mkGp time randomValue next output).

Definition generatePoints (pw : pow10) (rs : draws)
    (pointCount decimalPlaces : Z) : result (Array Point) :=
  output ← new_Array pointCount;
  let time := new_Date_ymd 2024 1 1 in
  let power := Math_pow10 pw decimalPlaces in
  let '(randomValue, next) := Math_random rs 0 in
  st ← for_loop (Z.to_nat pointCount) 0 (generatePoints_body rs power)
         (mkGp time randomValue next output);
  Ok (gp_output st).

(** One turn of the loop of [encodeBinaryPairs]. *)
Definition encodeBinaryPairs_body (points : Array Point)
    (i : nat) (buffer : Buffer) : result Buffer :=
  p ← defined (Array_get points i);
  buffer ← writeDoubleBE (getTime (time p)) (i * 16) buffer;
  p ← defined (Array_get points i);
  writeDoubleBE (value p) (i * 16 + 8) buffer.

Definition encodeBinaryPairs (pool : nat -> byte) (points : Array Point)
    : result Buffer :=
  let buffer := Buffer_allocUnsafe pool (length points * 16) in
  for_loop (length points) 0 (encodeBinaryPairs_body points) buffer.

(** One turn of the loop of [encodeBinarySets]. *)
Definition encodeBinarySets_body (points : Array Point)
    (secondBlock : nat) (i : nat) (buffer : Buffer) : result Buffer :=
  p ← defined (Array_get points i);
  buffer ← writeDoubleBE (getTime (time p)) (i * 8) buffer;
  p ← defined (Array_get points i);
  writeDoubleBE (value p) (i * 8 + secondBlock) buffer.

Definition encodeBinarySets (pool : nat -> byte) (points : Array Point)
    : result Buffer :=
  let buffer := Buffer_allocUnsafe pool (length points * 16) in
  let secondBlock := (length points * 8)%nat in
  for_loop (length points) 0 (encodeBinarySets_body points secondBlock)
    buffer.

(** The handler of [/csv/:pointCount/:decimalPlaces], lines 66 to 73.
    [Date.prototype.toISOString] (a RangeError on an invalid date) and
    the conversion of a number to a string in a template literal are
    the runtime's. *)
Section Csv.
Variable Date_toISOString : Date -> result string.
Variable Number_toString : number -> string.

Definition csv_line (point : Point) : result string :=
  iso ← Date_toISOString (time point);
  Ok (iso ++ "," ++ Number_toString (value point))%string.

Definition csv_data (points : Array Point) : result string :=
  lines ← Array_map csv_line points;
  Ok ("time,value" ++ newline ++ Array_join newline lines)%string.

Definition csv_route (pw : pow10) (rs : draws) (pointCount decimalPlaces : Z)
    : result string :=
  points ← generatePoints pw rs pointCount decimalPlaces;
  csv_data points.
End Csv.

(** The handler of the binary route, with [decimalPlaces] fixed at 5.
    The route pattern admits [pairs] and [sets], [raw] and [base64]; the
    handler compares with ['pairs'] and with ['base64'] only. *)
Definition binary_route (pw : pow10) (rs : draws) (pool : nat -> byte)
    (pointCount : Z) (structure encoding : string) : result body :=
  pointData ← generatePoints pw rs pointCount 5;
  data ← (if String.eqb structure "pairs"
          then encodeBinaryPairs pool pointData
          else encodeBinarySets pool pointData);
  if String.eqb encoding "base64"
  then text ← Buffer_toString_base64 data; Ok (Text text)
  else Ok (Binary data).

(** The filter given to [compression], line 50, as a function of the
    request's [accept-encoding] header ([None] when the request has
    none: [undefined?.indexOf(...)] is [undefined], which is not -1). *)
Definition compression_filter (accept_encoding : option string) : bool :=
  match accept_encoding with
  | None => true
  | Some h => negb (String_indexOf h "gzip" =? -1)
  end.

End Format1.

(** ** [src/encoding-time-series-data.ts] *)

Module Format2.

Definition millisecondsPerHour : number :=
  fmul (fmul (Z2number 1000) (Z2number 60)) (Z2number 60).

(** One turn of the loop of [generatePoints], lines 18 to 23. *)
Definition generatePoints_body (rs : draws) (power : number)
    (i : nat) (st : gp_state) : result gp_state :=
  let '(r, next) := Math_random rs (gp_next st) in
  let randomValue := fadd (gp_randomValue st) (fsub r lit_0_5) in
  let output :=
    Array_set i
      {| time := gp_time st;
         value := fdiv (Math_round (fmul randomValue power)) power |}
      (gp_output st) in
  let time := new_Date (fadd (getTime (gp_time st)) millisecondsPerHour) in
  Ok (mkGp time randomValue next output).

Definition generatePoints (pw : pow10) (rs : draws)
    (pointCount decimalPlaces : Z) : result (Array Point) :=
  output ← new_Array pointCount;
  let time := new_Date_ymd 2024 1 1 in
  let power := Math_pow10 pw decimalPlaces in
  let '(randomValue, next) := Math_random rs 0 in
  st ← for_loop (Z.to_nat pointCount) 0 (generatePoints_body rs power)
         (mkGp time randomValue next output);
  Ok (gp_output st).

(** One turn of the loop of [encodeBinaryPairs]. *)
Definition encodeBinaryPairs_body (points : Array Point)
    (i : nat) (buffer : Buffer) : result Buffer :=
  p ← defined (Array_get points i);
  buffer ← writeDoubleBE (getTime (time p)) (i * 16) buffer;
  p ← defined (Array_get points i);
  writeDoubleBE (value p) (i * 16 + 8) buffer.

Definition encodeBinaryPairs (pool : nat -> byte) (points : Array Point)
    : result Buffer :=
  let buffer := Buffer_allocUnsafe pool (length points * 16) in
  for_loop (length points) 0 (encodeBinaryPairs_body points) buffer.

(** One turn of the loop of [encodeBinarySets]. *)
Definition encodeBinarySets_body (points : Array Point)
    (secondBlock : nat) (i : nat) (buffer : Buffer) : result Buffer :=
  p ← defined (Array_get points i);
  buffer ← writeDoubleBE (getTime (time p)) (i * 8) buffer;
  p ← defined (Array_get points i);
  writeDoubleBE (value p) (i * 8 + secondBlock) buffer.

Definition encodeBinarySets (pool : nat -> byte) (points : Array Point)
    : result Buffer :=
  let buffer := Buffer_allocUnsafe pool (length points * 16) in
  let secondBlock := (length points * 8)%nat in
  for_loop (length points) 0 (encodeBinarySets_body points secondBlock)
    buffer.

(** The handler of the binary route, with [decimalPlaces] fixed at 5.
    The route pattern admits [pairs] and [sets], [raw] and [base64]; the
    handler compares with ['pairs'] and with ['base64'] only. *)
Definition binary_route (pw : pow10) (rs : draws) (pool : nat -> byte)
    (pointCount : Z) (structure encoding : string) : result body :=
  pointData ← generatePoints pw rs pointCount 5;
  data ← (if String.eqb structure "pairs"
          then encodeBinaryPairs pool pointData
          else encodeBinarySets pool pointData);
  if String.eqb encoding "base64"
  then text ← Buffer_toString_base64 data; Ok (Text text)
  else Ok (Binary data).

End Format2.

(** ** What the functions compute, written as recurrences

    The variables of [generatePoints] after [k] turns of its loop:
    [time] and [randomValue]; and the point the turn with index [i]
    stores. *)

Fixpoint time_after (k : nat) : Date :=
  match k with
  | O => new_Date_ymd 2024 1 1
  | S k' => new_Date (fadd (getTime (time_after k')) Format1.millisecondsPerHour)
  end.

Fixpoint randomValue_after (rs : draws) (k : nat) : number :=
  match k with
  | O => rs O
  | S k' => fadd (randomValue_after rs k') (fsub (rs (S k')) lit_0_5)
  end.

Definition point_at (rs : draws) (power : number) (i : nat) : Point :=
  {| time := time_after i;
     value := fdiv (Math_round (fmul (randomValue_after rs (S i)) power))
                   power |}.

(** The array after [k] turns, without the holes still to fill. *)
Definition points_upto (rs : draws) (power : number) (k : nat) : Array Point :=
  map (fun i => Some (point_at rs power i)) (seq 0 k).

(** The first timestamp, 2024-01-01T00:00:00Z, and the step of one hour,
    as integers of milliseconds. *)
Definition basetime : Z := 1704067200000.
Definition hour : Z := 3600000.

(** The last index whose timestamp is a valid time value:
    [basetime + lastIndex * hour = maxTimeValue]. *)
Definition lastIndex : Z := 2399526648.

(** [y] is [x] rounded to an integer, the nearest one and on a tie the
    one toward [+Infinity]; [x] is [v / q] below. *)
Definition nearest_ties_up (x y : number) : Prop :=
  match x with
  | S754_finite s m e =>
      if 0 <=? e then y = x
      else
        let q := 2 ^ (- e) in
        let v := cond_Zopp s (Zpos m) in
        exists r : Z,
          (2 * r - 1) * q <= 2 * v < (2 * r + 1) * q /\
          y = if r =? 0 then S754_zero s else Z2number r
  | _ => y = x
  end.

(** Rounding half away from zero, as the specification words it: the
    magnitude is rounded to the nearest integer, a half going up, and the
    sign is kept. *)
Definition round_half_away_from_zero (x : number) : number :=
  match x with
  | S754_finite s m e =>
      if 0 <=? e then x
      else
        let q := 2 ^ (- e) in
        let r := (2 * Zpos m + q) / (2 * q) in
        if r =? 0 then S754_zero s else Z2number (cond_Zopp s r)
  | _ => x
  end.

(** The two layouts of section 4.2, as byte lists. *)
Definition pairs_layout (ps : list Point) : list byte :=
  flat_map (fun p => doubleBE (getTime (time p)) ++ doubleBE (value p)) ps.

Definition times_layout (ps : list Point) : list byte :=
  flat_map (fun p => doubleBE (getTime (time p))) ps.

Definition values_layout (ps : list Point) : list byte :=
  flat_map (fun p => doubleBE (value p)) ps.

Definition sets_layout (ps : list Point) : list byte :=
  times_layout ps ++ values_layout ps.

(** A point whose two numbers are doubles. *)
Definition valid_point (p : Point) : bool :=
  valid_number (getTime (time p)) && valid_number (value p).

(** Streams of draws used in the examples: all zero; and 0.75 first,
    then zero. *)
Definition zero_draws : draws := fun _ => S754_zero false.

Definition draws_075 : draws := fun k =>
  match k with
  | O => S754_finite false 6755399441055744 (-53)
  | _ => S754_zero false
  end.

(** A memory pool for the examples. *)
Definition pool_of (b : byte) : nat -> byte := fun _ => b.

(** Draws that are zero for the first four and 0.75 from then on. *)
Definition zero_then_075 : draws := fun k =>
  match k with
  | O | 1%nat | 2%nat | 3%nat => S754_zero false
  | _ => S754_finite false 6755399441055744 (-53)
  end.

(** * Properties *)

(** ** Exact integers in binary64 *)

Lemma digits2_pos_size (p : positive) : digits2_pos p = Pos.size p.
Proof. induction p as [p IH|p IH|]; simpl; now rewrite ?IH. Qed.

Lemma Zdigits2_log2 (p : positive) :
  Zpos (digits2_pos p) = Z.log2 (Zpos p) + 1.
Proof.
  rewrite digits2_pos_size.
  destruct p as [p|p|]; simpl; try reflexivity; lia.
Qed.

Lemma iter_pos_nat {A : Type} (f : A -> A) (p : positive) (x : A) :
  SpecFloat.iter_pos f p x = Nat.iter (Pos.to_nat p) f x.
Proof.
  revert x; induction p as [p IH|p IH|]; intros x; simpl SpecFloat.iter_pos.
  - rewrite !IH, Pos2Nat.inj_xI.
    replace (S (2 * Pos.to_nat p))%nat with (Pos.to_nat p + S (Pos.to_nat p))%nat by lia.
    rewrite Nat.iter_add, Nat.iter_succ_r. reflexivity.
  - rewrite !IH, Pos2Nat.inj_xO.
    replace (2 * Pos.to_nat p)%nat with (Pos.to_nat p + Pos.to_nat p)%nat by lia.
    rewrite Nat.iter_add. reflexivity.
  - reflexivity.
Qed.

Lemma shr_1_double (z : Z) :
  0 < z ->
  shr_1 {| shr_m := 2 * z; shr_r := false; shr_s := false |}
  = {| shr_m := z; shr_r := false; shr_s := false |}.
Proof. destruct z; simpl; intros; try lia; reflexivity. Qed.

Lemma iter_shr_1_exact (n : nat) (z : Z) :
  0 < z ->
  Nat.iter n shr_1 {| shr_m := z * 2 ^ Z.of_nat n; shr_r := false; shr_s := false |}
  = {| shr_m := z; shr_r := false; shr_s := false |}.
Proof.
  intros Hz. induction n as [|n IH].
  - simpl. f_equal. lia.
  - rewrite Nat.iter_succ_r.
    replace (z * 2 ^ Z.of_nat (S n)) with (2 * (z * 2 ^ Z.of_nat n))
      by (rewrite Nat2Z.inj_succ, Z.pow_succ_r; lia).
    rewrite shr_1_double by lia. exact IH.
Qed.

(** Right shifts that drop only zero bits lose nothing. *)
Lemma shr_exact (z e n : Z) :
  0 < z -> 0 <= n ->
  shr {| shr_m := z * 2 ^ n; shr_r := false; shr_s := false |} e n
  = ({| shr_m := z; shr_r := false; shr_s := false |}, e + n).
Proof.
  intros Hz Hn. destruct n as [|p|p]; try lia.
  - simpl. f_equal; [f_equal|]; lia.
  - unfold shr. rewrite iter_pos_nat.
    rewrite <- (positive_nat_Z p) at 1.
    rewrite iter_shr_1_exact by lia. reflexivity.
Qed.

Lemma fexp_53 (d : Z) : -1021 <= d -> fexp prec emax d = d - 53.
Proof. unfold fexp, emin, prec, emax. lia. Qed.

(** Rounding a 53-bit mantissa that was shifted up by [n] zero bits gives
    back the mantissa. *)
Lemma binary_round_aux_exact (s : bool) (m : positive) (e n : Z) :
  Z.log2 (Zpos m) = 52 -> 0 <= n -> -1074 <= e + n <= 971 ->
  binary_round_aux prec emax s (Zpos m * 2 ^ n) e loc_Exact
  = S754_finite s m (e + n).
Proof.
  intros Hm Hn He.
  assert (Hpos : 0 < Zpos m * 2 ^ n) by (apply Z.mul_pos_pos; lia).
  assert (Hd : Zdigits2 (Zpos m * 2 ^ n) = 53 + n).
  { destruct (Zpos m * 2 ^ n) as [|q|q] eqn:Hq; try lia.
    unfold Zdigits2. rewrite Zdigits2_log2, <- Hq, Z.log2_mul_pow2 by lia. lia. }
  unfold binary_round_aux, shr_fexp.
  rewrite Hd, fexp_53 by lia.
  replace (53 + n + e - 53 - e) with n by lia.
  unfold shr_record_of_loc. rewrite shr_exact by lia.
  cbn [shr_m loc_of_shr_record round_nearest_even shr_record_of_loc].
  unfold Zdigits2. rewrite Zdigits2_log2, Hm, fexp_53 by lia.
  replace (52 + 1 + (e + n) - 53 - (e + n)) with 0 by lia.
  cbn [shr shr_m].
  destruct (Z.leb_spec (e + n) (emax - prec)) as [_|H]; [reflexivity|].
  unfold emax, prec in H. lia.
Qed.

Lemma Zpos_iter_xO (m d : positive) :
  Zpos (Pos.iter xO m d) = Zpos m * 2 ^ Zpos d.
Proof.
  rewrite (Pos.iter_swap_gen _ _ Zpos xO (Z.mul 2)) by reflexivity.
  change (Pos.iter (Z.mul 2) (Zpos m) d) with (Z.shiftl (Zpos m) (Zpos d)).
  apply Z.shiftl_mul_pow2. lia.
Qed.

Lemma Zpos_shiftl (p : positive) (n : N) :
  Zpos (Pos.shiftl p n) = Zpos p * 2 ^ Z.of_N n.
Proof.
  destruct n as [|d]; unfold Pos.shiftl.
  - change (Z.of_N 0) with 0. rewrite Z.pow_0_r. lia.
  - apply Zpos_iter_xO.
Qed.

Lemma shl_align_fst (m : positive) (e e' : Z) :
  e' <= e -> Zpos (fst (shl_align m e e')) = Zpos m * 2 ^ (e - e').
Proof.
  intros H. unfold shl_align.
  destruct (e' - e) as [|d|d] eqn:Hd; simpl fst.
  - replace (e - e') with 0 by lia. rewrite Z.pow_0_r. lia.
  - lia.
  - rewrite Zpos_iter_xO. f_equal. f_equal. lia.
Qed.

Lemma log2_lt_53 (z : Z) : 0 < z < 2 ^ 53 -> 0 <= Z.log2 z <= 52.
Proof.
  intros [Hz Hlt]. split; [apply Z.log2_nonneg|].
  assert (Z.log2 z < 53) by (apply Z.log2_lt_pow2; lia). lia.
Qed.

(** The mantissa of [canon]: 53 bits, the integer shifted up. *)
Lemma canon_mantissa (p : positive) :
  Zpos p < 2 ^ 53 ->
  let c := Pos.shiftl p (Z.to_N (52 - Z.log2 (Zpos p))) in
  Zpos c = Zpos p * 2 ^ (52 - Z.log2 (Zpos p)) /\ Z.log2 (Zpos c) = 52.
Proof.
  intros Hlt c.
  pose proof (log2_lt_53 (Zpos p) ltac:(lia)) as Hl.
  assert (Hc : Zpos c = Zpos p * 2 ^ (52 - Z.log2 (Zpos p))).
  { unfold c. rewrite Zpos_shiftl, Z2N.id by lia. reflexivity. }
  split; [exact Hc|].
  rewrite Hc, Z.log2_mul_pow2 by lia. lia.
Qed.

(** An integer below [2^53] with [k] zero bits appended, at exponent
    [-k], normalises to the double of the integer. *)
Lemma binary_normalize_exact (z k : Z) :
  0 < z < 2 ^ 53 -> 0 <= k ->
  binary_normalize prec emax (z * 2 ^ k) (- k) false = canon z.
Proof.
  intros Hz Hk.
  destruct z as [|p|p]; try lia.
  pose proof (log2_lt_53 (Zpos p) Hz) as Hl.
  destruct (canon_mantissa p ltac:(lia)) as [Hc Hc52].
  set (c := Pos.shiftl p (Z.to_N (52 - Z.log2 (Zpos p)))) in *.
  assert (Hpos : 0 < Zpos p * 2 ^ k) by (apply Z.mul_pos_pos; lia).
  destruct (Zpos p * 2 ^ k) as [|M|M] eqn:HM; try lia.
  unfold canon; fold c.
  unfold binary_normalize, binary_round.
  rewrite Zdigits2_log2. rewrite <- HM. rewrite Z.log2_mul_pow2 by lia.
  rewrite fexp_53 by lia.
  unfold shl_align.
  destruct (k + Z.log2 (Zpos p) + 1 + - k - 53 - - k) as [|d|d] eqn:Hd.
  - replace (Zpos M) with (Zpos c * 2 ^ (k + Z.log2 (Zpos p) - 52)).
    2:{ rewrite Hc, <- HM, <- Z.mul_assoc, <- Z.pow_add_r by lia. do 2 f_equal. lia. }
    rewrite binary_round_aux_exact by lia. f_equal. lia.
  - replace (Zpos M) with (Zpos c * 2 ^ (k + Z.log2 (Zpos p) - 52)).
    2:{ rewrite Hc, <- HM, <- Z.mul_assoc, <- Z.pow_add_r by lia. do 2 f_equal. lia. }
    rewrite binary_round_aux_exact by lia. f_equal. lia.
  - rewrite Zpos_iter_xO.
    replace (Zpos M * 2 ^ Zpos d) with (Zpos c * 2 ^ 0).
    2:{ rewrite Hc, <- HM, <- !Z.mul_assoc, <- !Z.pow_add_r by lia.
        do 2 f_equal. lia. }
    rewrite binary_round_aux_exact by lia. f_equal. lia.
Qed.

Lemma Z2number_canon (z : Z) : 0 < z < 2 ^ 53 -> Z2number z = canon z.
Proof.
  intros Hz. unfold Z2number.
  rewrite <- (binary_normalize_exact z 0) by lia.
  f_equal. rewrite Z.pow_0_r. lia.
Qed.

(** Adding two positive integers whose sum is below [2^53] is exact. *)
Lemma fadd_canon (a b : Z) :
  0 < a -> 0 < b -> a + b < 2 ^ 53 ->
  fadd (canon a) (canon b) = canon (a + b).
Proof.
  intros Ha Hb Hab.
  destruct a as [|p|p]; try lia. destruct b as [|q|q]; try lia.
  pose proof (log2_lt_53 (Zpos p) ltac:(lia)) as Hlp.
  pose proof (log2_lt_53 (Zpos q) ltac:(lia)) as Hlq.
  destruct (canon_mantissa p ltac:(lia)) as [Hcp _].
  destruct (canon_mantissa q ltac:(lia)) as [Hcq _].
  unfold fadd, canon, SFadd, cond_Zopp.
  set (ea := Z.log2 (Zpos p) - 52). set (eb := Z.log2 (Zpos q) - 52).
  rewrite !shl_align_fst by lia.
  rewrite Hcp, Hcq.
  set (ez := Z.min ea eb).
  replace (Zpos p * 2 ^ (52 - Z.log2 (Zpos p)) * 2 ^ (ea - ez)
           + Zpos q * 2 ^ (52 - Z.log2 (Zpos q)) * 2 ^ (eb - ez))
    with ((Zpos p + Zpos q) * 2 ^ (- ez)).
  2:{ rewrite <- !Z.mul_assoc, <- !Z.pow_add_r by lia.
      replace (52 - Z.log2 (Zpos p) + (ea - ez)) with (- ez) by lia.
      replace (52 - Z.log2 (Zpos q) + (eb - ez)) with (- ez) by lia.
      lia. }
  replace ez with (- (- ez)) at 2 by lia.
  apply (binary_normalize_exact (Zpos p + Zpos q) (- ez)); lia.
Qed.

(** Doubles of positive integers below [2^53] compare as the integers. *)
Lemma fltb_canon (a b : Z) :
  0 < a < 2 ^ 53 -> 0 < b < 2 ^ 53 ->
  fltb (canon a) (canon b) = (a <? b).
Proof.
  intros Ha Hb.
  destruct a as [|p|p]; try lia. destruct b as [|q|q]; try lia.
  pose proof (log2_lt_53 (Zpos p) Ha) as Hlp.
  pose proof (log2_lt_53 (Zpos q) Hb) as Hlq.
  destruct (canon_mantissa p ltac:(lia)) as [Hcp _].
  destruct (canon_mantissa q ltac:(lia)) as [Hcq _].
  unfold fltb, canon, SFltb, SFcompare.
  rewrite Pos.compare_cont_spec. simpl Pos.switch_Eq.
  set (cp := Pos.shiftl p _) in *. set (cq := Pos.shiftl q _) in *.
  destruct (Z.ltb_spec (Zpos p) (Zpos q)) as [Hlt|Hge].
  - assert (Hle : Z.log2 (Zpos p) <= Z.log2 (Zpos q)) by (apply Z.log2_le_mono; lia).
    destruct (Z.compare_spec (Z.log2 (Zpos p) - 52) (Z.log2 (Zpos q) - 52)) as [He|He|He];
      try reflexivity; try lia.
    assert (Hc : Zpos cp < Zpos cq).
    { rewrite Hcp, Hcq.
      replace (Z.log2 (Zpos q)) with (Z.log2 (Zpos p)) by lia.
      apply Z.mul_lt_mono_pos_r; [apply Z.pow_pos_nonneg|]; lia. }
    rewrite (proj2 (Pos.compare_lt_iff cp cq)) by lia. reflexivity.
  - assert (Hle : Z.log2 (Zpos q) <= Z.log2 (Zpos p)) by (apply Z.log2_le_mono; lia).
    destruct (Z.compare_spec (Z.log2 (Zpos p) - 52) (Z.log2 (Zpos q) - 52)) as [He|He|He];
      try reflexivity; try lia.
    assert (Hc : Zpos cq <= Zpos cp).
    { rewrite Hcp, Hcq.
      replace (Z.log2 (Zpos q)) with (Z.log2 (Zpos p)) by lia.
      apply Z.mul_le_mono_nonneg_r; [apply Z.pow_nonneg|]; lia. }
    destruct (Pos.compare_spec cp cq); try reflexivity. lia.
Qed.

(** ** Dates of integer milliseconds *)

Lemma truncate_canon (a : Z) : 0 < a < 2 ^ 53 -> truncate (canon a) = canon a.
Proof.
  intros Ha. destruct a as [|p|p]; try lia.
  pose proof (log2_lt_53 (Zpos p) Ha) as Hl.
  destruct (canon_mantissa p ltac:(lia)) as [Hc _].
  unfold canon at 1, truncate.
  destruct (Z.leb_spec 0 (Z.log2 (Zpos p) - 52)) as [_|He]; [reflexivity|].
  rewrite Hc.
  replace (- (Z.log2 (Zpos p) - 52)) with (52 - Z.log2 (Zpos p)) by lia.
  rewrite Z.div_mul by (apply Z.pow_nonzero; lia).
  simpl Z.eqb. cbn [cond_Zopp]. apply Z2number_canon. lia.
Qed.

Lemma maxTimeValue_canon : Z2number maxTimeValue = canon maxTimeValue.
Proof. apply Z2number_canon. unfold maxTimeValue. lia. Qed.

Lemma TimeClip_canon (a : Z) :
  0 < a <= maxTimeValue -> TimeClip (canon a) = canon a.
Proof.
  intros Ha. unfold maxTimeValue in Ha.
  assert (Hlt : 0 < a < 2 ^ 53) by lia.
  destruct a as [|p|p]; try lia.
  assert (Hc : exists m e, canon (Zpos p) = S754_finite false m e)
    by (do 2 eexists; reflexivity).
  destruct Hc as (m & e & Hc).
  unfold TimeClip. rewrite Hc. cbn [SFabs]. rewrite <- Hc.
  rewrite maxTimeValue_canon, fltb_canon by (unfold maxTimeValue; lia).
  destruct (Z.ltb_spec maxTimeValue (Zpos p)) as [H|_];
    [unfold maxTimeValue in H; lia|].
  apply truncate_canon. lia.
Qed.

Lemma TimeClip_canon_over (a : Z) :
  maxTimeValue < a < 2 ^ 53 -> TimeClip (canon a) = S754_nan.
Proof.
  intros Ha. unfold maxTimeValue in Ha.
  destruct a as [|p|p]; try lia.
  assert (Hc : exists m e, canon (Zpos p) = S754_finite false m e)
    by (do 2 eexists; reflexivity).
  destruct Hc as (m & e & Hc).
  unfold TimeClip. rewrite Hc. cbn [SFabs]. rewrite <- Hc.
  rewrite maxTimeValue_canon, fltb_canon by (unfold maxTimeValue; lia).
  destruct (Z.ltb_spec maxTimeValue (Zpos p)) as [_|H];
    [reflexivity|unfold maxTimeValue in H; lia].
Qed.

Lemma millisecondsPerHour_canon : Format1.millisecondsPerHour = canon hour.
Proof. vm_compute. reflexivity. Qed.

Example basetime_is_2024_01_01 :
  days_from_civil 2024 1 1 * msPerDay = basetime
  /\ hour = 1000 * 60 * 60.
Proof. split; reflexivity. Qed.

Lemma time_after_0 : time_after 0 = mkDate (canon basetime).
Proof. vm_compute. reflexivity. Qed.

(** The timestamp of index [k], up to the last valid one. *)
Lemma time_after_canon (k : nat) :
  Z.of_nat k <= lastIndex ->
  time_after k = mkDate (canon (basetime + Z.of_nat k * hour)).
Proof.
  unfold lastIndex. induction k as [|k IH]; intros Hk.
  - rewrite time_after_0. f_equal.
  - cbn [time_after]. rewrite IH by lia. cbn [getTime].
    rewrite millisecondsPerHour_canon, fadd_canon
      by (unfold basetime, hour; lia).
    unfold new_Date. rewrite TimeClip_canon
      by (unfold basetime, hour, maxTimeValue; lia).
    do 2 f_equal. unfold hour. lia.
Qed.

(** One hour past the last valid timestamp the date is invalid. *)
Lemma time_after_invalid (k : nat) :
  Z.of_nat k = lastIndex -> time_after (S k) = mkDate S754_nan.
Proof.
  intros Hk. cbn [time_after].
  rewrite time_after_canon by lia.
  cbn [getTime].
  rewrite millisecondsPerHour_canon, fadd_canon
    by (unfold basetime, hour, lastIndex in *; lia).
  unfold new_Date. rewrite TimeClip_canon_over; [reflexivity|].
  unfold basetime, hour, lastIndex, maxTimeValue in *. lia.
Qed.

(** ** The loop of [generatePoints] *)

Lemma Array_set_next {A : Type} (done : list (option A)) (v : A) (i n : nat) :
  i = length done ->
  Array_set i v (done ++ replicate (S n) None)
  = (done ++ [Some v]) ++ replicate n None.
Proof.
  intros ->. unfold Array_set.
  destruct (Nat.ltb_spec (length done) (length (done ++ replicate (S n) None)))
    as [_|H].
  - rewrite insert_app_r_alt by lia. rewrite Nat.sub_diag. cbn.
    rewrite <- app_assoc. reflexivity.
  - rewrite length_app, length_replicate in H. lia.
Qed.

Lemma generatePoints_body_step (rs : draws) (power : number) (count i : nat) :
  Format1.generatePoints_body rs power i
    (mkGp (time_after i) (randomValue_after rs i) (S i)
          (points_upto rs power i ++ replicate (S count) None))
  = Ok (mkGp (time_after (S i)) (randomValue_after rs (S i)) (S (S i))
             (points_upto rs power (S i) ++ replicate count None)).
Proof.
  unfold Format1.generatePoints_body.
  cbn [Math_random gp_next gp_randomValue gp_time gp_output].
  rewrite Array_set_next
    by (unfold points_upto; rewrite length_map, length_seq; reflexivity).
  do 2 f_equal. unfold points_upto. rewrite seq_S, map_app. reflexivity.
Qed.

Lemma generatePoints_loop (rs : draws) (power : number) (count i : nat) :
  for_loop count i (Format1.generatePoints_body rs power)
    (mkGp (time_after i) (randomValue_after rs i) (S i)
          (points_upto rs power i ++ replicate count None))
  = Ok (mkGp (time_after (i + count)) (randomValue_after rs (i + count))
             (S (i + count)) (points_upto rs power (i + count))).
Proof.
  revert i. induction count as [|count IH]; intros i.
  - cbn [for_loop replicate]. rewrite Nat.add_0_r, app_nil_r. reflexivity.
  - cbn [for_loop]. rewrite generatePoints_body_step.
    cbn [mbind result_bind]. rewrite IH.
    replace (S i + count)%nat with (i + S count)%nat by lia. reflexivity.
Qed.

(** [generatePoints], for a count that [new Array] accepts. *)
Lemma generatePoints_spec (pw : pow10) (rs : draws) (n d : Z) :
  0 <= n < 2 ^ 32 ->
  Format1.generatePoints pw rs n d
  = Ok (points_upto rs (Math_pow10 pw d) (Z.to_nat n)).
Proof.
  intros Hn. unfold Format1.generatePoints, new_Array.
  destruct (Z.leb_spec 0 n) as [_|H0]; [|lia].
  destruct (Z.ltb_spec n (2 ^ 32)) as [_|H1]; [|lia].
  cbn [andb mbind result_bind Math_random].
  pose proof (generatePoints_loop rs (Math_pow10 pw d) (Z.to_nat n) 0) as H.
  cbn [time_after randomValue_after points_upto seq map app Nat.add] in H.
  rewrite H. reflexivity.
Qed.

Lemma points_upto_Array_of (rs : draws) (power : number) (k : nat) :
  points_upto rs power k = Array_of (map (point_at rs power) (seq 0 k)).
Proof. unfold points_upto, Array_of. rewrite map_map. reflexivity. Qed.

Lemma lookup_points (rs : draws) (power : number) (k i : nat) (p : Point) :
  map (point_at rs power) (seq 0 k) !! i = Some p ->
  (i < k)%nat /\ p = point_at rs power i.
Proof.
  intros H. change (map (point_at rs power) (seq 0 k)) with
    (point_at rs power <$> seq 0 k) in H.
  rewrite list_lookup_fmap in H.
  destruct (seq 0 k !! i) as [j|] eqn:Hj; [|discriminate].
  apply lookup_seq in Hj. destruct Hj as [-> Hlt].
  cbn in H. split; [exact Hlt|congruence].
Qed.

Lemma points_upto_lookup (rs : draws) (power : number) (k i : nat) :
  (i < k)%nat ->
  points_upto rs power k !! i = Some (Some (point_at rs power i)).
Proof.
  intros Hi. unfold points_upto. change (map ?f ?l) with (f <$> l).
  rewrite list_lookup_fmap, lookup_seq_lt by exact Hi. reflexivity.
Qed.

(** C1, as amended: for every integer [n] with
    [0 <= n <= lastIndex + 1 = 2399526649] and every [decimalPlaces],
    [generatePoints] returns an array of exactly [n] points and no hole,
    the timestamp with index [i] is the number [basetime + i * hour]
    (1704067200000 is 2024-01-01T00:00:00Z, the step is one hour),
    timestamps increase strictly, and a run with other draws [rs'] returns
    the same timestamps. *)
Theorem generatePoints_timestamps (pw : pow10) (rs rs' : draws) (n d : Z) :
  0 <= n <= lastIndex + 1 ->
  exists pts pts' : list Point,
    Format1.generatePoints pw rs n d = Ok (Array_of pts) /\
    Format1.generatePoints pw rs' n d = Ok (Array_of pts') /\
    Z.of_nat (length pts) = n /\
    map time pts' = map time pts /\
    (forall (i : nat) (p : Point), pts !! i = Some p ->
       getTime (time p) = Z2number (basetime + Z.of_nat i * hour)) /\
    (forall (i j : nat) (p q : Point),
       pts !! i = Some p -> pts !! j = Some q -> (i < j)%nat ->
       fltb (getTime (time p)) (getTime (time q)) = true).
Proof.
  intros Hn. unfold lastIndex in Hn.
  exists (map (point_at rs (Math_pow10 pw d)) (seq 0 (Z.to_nat n))),
         (map (point_at rs' (Math_pow10 pw d)) (seq 0 (Z.to_nat n))).
  assert (Htime : forall i p,
    map (point_at rs (Math_pow10 pw d)) (seq 0 (Z.to_nat n)) !! i = Some p ->
    getTime (time p) = canon (basetime + Z.of_nat i * hour)
    /\ 0 < basetime + Z.of_nat i * hour < 2 ^ 53).
  { intros i p Hp. apply lookup_points in Hp. destruct Hp as [Hi ->].
    cbn [point_at time]. rewrite time_after_canon by (unfold lastIndex; lia).
    split; [reflexivity|unfold basetime, hour; lia]. }
  split; [|split; [|split; [|split; [|split]]]].
  - rewrite generatePoints_spec by lia. f_equal. apply points_upto_Array_of.
  - rewrite generatePoints_spec by lia. f_equal. apply points_upto_Array_of.
  - rewrite length_map, length_seq. lia.
  - rewrite !map_map. reflexivity.
  - intros i p Hp. destruct (Htime i p Hp) as [-> Hr].
    symmetry. apply Z2number_canon. exact Hr.
  - intros i j p q Hp Hq Hij.
    destruct (Htime i p Hp) as [-> Hi]. destruct (Htime j q Hq) as [-> Hj].
    rewrite fltb_canon by assumption.
    apply Z.ltb_lt. unfold hour. lia.
Qed.

(** An instance: three points, two decimal places, two streams of
    draws. *)
Lemma generatePoints_timestamps_witness :
  exists pts pts' : list Point,
    Format1.generatePoints exact_pow10 zero_draws 3 2 = Ok (Array_of pts) /\
    Format1.generatePoints exact_pow10 draws_075 3 2 = Ok (Array_of pts') /\
    Z.of_nat (length pts) = 3 /\
    map time pts' = map time pts /\
    (forall (i : nat) (p : Point), pts !! i = Some p ->
       getTime (time p) = Z2number (basetime + Z.of_nat i * hour)) /\
    (forall (i j : nat) (p q : Point),
       pts !! i = Some p -> pts !! j = Some q -> (i < j)%nat ->
       fltb (getTime (time p)) (getTime (time q)) = true).
Proof.
  apply (generatePoints_timestamps exact_pow10 zero_draws draws_075 3 2).
  unfold lastIndex. lia.
Defined.

(** C1 as stated fails at two non-negative integers.  At [2^32],
    [new Array(4294967296)] throws a RangeError and no point is returned.
    At 2399526650 the array is returned, but the timestamp of its last
    point, index 2399526649, is past the largest time value of a [Date]:
    it is NaN, not [basetime + 2399526649 * hour]. *)
Lemma generatePoints_limits :
  Format1.generatePoints exact_pow10 zero_draws 4294967296 0
  = Throw RangeError
  /\ exists (pts : list (option Point)) (p : Point),
       Format1.generatePoints exact_pow10 zero_draws 2399526650 0 = Ok pts /\
       pts !! Z.to_nat 2399526649 = Some (Some p) /\
       getTime (time p) = S754_nan /\
       getTime (time p) <> Z2number (basetime + 2399526649 * hour).
Proof.
  split; [reflexivity|].
  exists (points_upto zero_draws (exact_pow10 0) (Z.to_nat 2399526650)),
         (point_at zero_draws (exact_pow10 0) (Z.to_nat 2399526649)).
  assert (Hnan : getTime (time (point_at zero_draws (exact_pow10 0)
                                         (Z.to_nat 2399526649))) = S754_nan).
  { unfold point_at. cbn [time].
    replace (Z.to_nat 2399526649) with (S (Z.to_nat lastIndex))
      by (unfold lastIndex; lia).
    rewrite time_after_invalid by (unfold lastIndex; lia).
    reflexivity. }
  split; [apply generatePoints_spec; lia|]. split; [|split].
  - apply points_upto_lookup. lia.
  - exact Hnan.
  - rewrite Hnan.
    change (basetime + 2399526649 * hour) with 8640000003600000.
    rewrite Z2number_canon by lia.
    unfold canon. discriminate.
Qed.

(** C4 as stated fails at [pointCount = -1]: [new Array(-1)] throws. *)
Lemma generatePoints_negative_throws :
  Format1.generatePoints exact_pow10 zero_draws (-1) 0 = Throw RangeError.
Proof. reflexivity. Qed.

(** C4, as amended: a [pointCount] of zero yields the empty array and
    no error; a negative [pointCount] makes [new Array] throw a
    RangeError (the routes match digits only, so a negative count never
    reaches [generatePoints]). *)
Theorem generatePoints_nonpositive (pw : pow10) (rs : draws) (n d : Z) :
  n <= 0 ->
  Format1.generatePoints pw rs n d = if n =? 0 then Ok [] else Throw RangeError.
Proof.
  intros Hn. destruct (Z.eqb_spec n 0) as [->|Hne].
  - reflexivity.
  - unfold Format1.generatePoints, new_Array.
    destruct (Z.leb_spec 0 n) as [H|_]; [lia|]. reflexivity.
Qed.

(** Instances: a count of zero and a count of -7. *)
Lemma generatePoints_nonpositive_witness :
  Format1.generatePoints exact_pow10 zero_draws 0 2 = Ok []
  /\ Format1.generatePoints exact_pow10 zero_draws (-7) 2 = Throw RangeError.
Proof.
  split.
  - apply (generatePoints_nonpositive exact_pow10 zero_draws 0 2). lia.
  - apply (generatePoints_nonpositive exact_pow10 zero_draws (-7) 2). lia.
Defined.

(** [Math.round] is rounding to the nearest integer, ties toward
    [+Infinity]. *)
Lemma Math_round_nearest_ties_up (x : number) :
  nearest_ties_up x (Math_round x).
Proof.
  destruct x as [s|s| |s m e]; cbn [nearest_ties_up Math_round]; try reflexivity.
  destruct (Z.leb_spec 0 e) as [_|He]; [reflexivity|].
  cbv zeta.
  assert (Hq : 0 < 2 ^ (- e)) by (apply Z.pow_pos_nonneg; lia).
  set (q := 2 ^ (- e)) in *. set (v := cond_Zopp s (Zpos m)).
  exists ((2 * v + q) / (2 * q)). split; [|reflexivity].
  pose proof (Z.div_mod (2 * v + q) (2 * q) ltac:(lia)) as Hdm.
  pose proof (Z.mod_pos_bound (2 * v + q) (2 * q) ltac:(lia)) as Hmod.
  nia.
Qed.

Example Math_round_minus_2_5 :
  Math_round (S754_finite true 5629499534213120 (-51)) = Z2number (-2).
Proof. reflexivity. Qed.

Example Math_round_2_5 :
  Math_round (S754_finite false 5629499534213120 (-51)) = Z2number 3.
Proof. reflexivity. Qed.

(** C3, as amended: the value of the point with index [i] is
    [Math.round(randomValue * power) / power] for the running value at
    that turn, [power] being the number the engine's
    [Math.pow(10, decimalPlaces)] returned, and [Math.round] rounds to
    the nearest integer with a tie going toward [+Infinity] (so -2.5
    rounds to -2, not to -3). *)
Theorem generatePoints_value_rounding (pw : pow10) (rs : draws) (n d : Z)
    (i : nat) :
  0 <= n < 2 ^ 32 -> (i < Z.to_nat n)%nat ->
  exists (pts : list (option Point)) (p : Point),
    Format1.generatePoints pw rs n d = Ok pts /\
    pts !! i = Some (Some p) /\
    let scaled := fmul (randomValue_after rs (S i)) (Math_pow10 pw d) in
    value p = fdiv (Math_round scaled) (Math_pow10 pw d) /\
    nearest_ties_up scaled (Math_round scaled).
Proof.
  intros Hn Hi.
  exists (points_upto rs (Math_pow10 pw d) (Z.to_nat n)),
         (point_at rs (Math_pow10 pw d) i).
  split; [apply generatePoints_spec; exact Hn|]. split.
  - apply points_upto_lookup. exact Hi.
  - cbv zeta. split; [reflexivity|apply Math_round_nearest_ties_up].
Qed.

(** An instance: the fifth of five points, every draw zero. *)
Lemma generatePoints_value_rounding_witness :
  exists (pts : list (option Point)) (p : Point),
    Format1.generatePoints exact_pow10 zero_draws 5 0 = Ok pts /\
    pts !! 4%nat = Some (Some p) /\
    let scaled := fmul (randomValue_after zero_draws 5) (exact_pow10 0) in
    value p = fdiv (Math_round scaled) (exact_pow10 0) /\
    nearest_ties_up scaled (Math_round scaled).
Proof.
  apply (generatePoints_value_rounding exact_pow10 zero_draws 5 0 4); [lia|].
  change (Z.to_nat 5) with 5%nat. lia.
Defined.

(** C3 as stated fails: with every draw 0 the running value of the
    fifth point is -2.5 and [decimalPlaces = 0]; the point's value is -2,
    where rounding half away from zero gives -3. *)
Lemma round_half_away_counterexample :
  exists (pts : list (option Point)) (p : Point),
    Format1.generatePoints exact_pow10 zero_draws 5 0 = Ok pts /\
    pts !! 4%nat = Some (Some p) /\
    randomValue_after zero_draws 5 = S754_finite true 5629499534213120 (-51) /\
    value p = Z2number (-2) /\
    fdiv (round_half_away_from_zero
            (fmul (randomValue_after zero_draws 5) (exact_pow10 0)))
         (exact_pow10 0) = Z2number (-3) /\
    value p <> fdiv (round_half_away_from_zero
                       (fmul (randomValue_after zero_draws 5)
                             (exact_pow10 0)))
                    (exact_pow10 0).
Proof.
  eexists. eexists.
  split; [vm_compute; reflexivity|].
  split; [reflexivity|].
  split; [vm_compute; reflexivity|].
  split; [vm_compute; reflexivity|].
  split; [vm_compute; reflexivity|].
  vm_compute. discriminate.
Qed.

(** C6, as amended: the running value starts as the first draw; at
    every turn, the first included, [Math.random() - 0.5] is added to it
    before the point is rounded and stored; the running value carries
    forward unrounded.  So the first point's value is the rounding of
    the first draw plus the second draw minus 0.5.  The rounding is to
    [decimalPlaces] places through the number the engine's
    [Math.pow(10, decimalPlaces)] returned. *)
Theorem generatePoints_value_evolution (pw : pow10) (rs : draws) (n d : Z) :
  0 <= n < 2 ^ 32 ->
  exists (pts : list Point) (running : nat -> number),
    Format1.generatePoints pw rs n d = Ok (Array_of pts) /\
    length pts = Z.to_nat n /\
    running O = rs O /\
    (forall k : nat,
       running (S k) = fadd (running k) (fsub (rs (S k)) lit_0_5)) /\
    (forall (i : nat) (p : Point), pts !! i = Some p ->
       value p = fdiv (Math_round (fmul (running (S i)) (Math_pow10 pw d)))
                      (Math_pow10 pw d)).
Proof.
  intros Hn.
  exists (map (point_at rs (Math_pow10 pw d)) (seq 0 (Z.to_nat n))),
         (randomValue_after rs).
  split; [|split; [|split; [|split]]].
  - rewrite generatePoints_spec by lia. f_equal. apply points_upto_Array_of.
  - rewrite length_map, length_seq. reflexivity.
  - reflexivity.
  - intros k. reflexivity.
  - intros i p Hp. apply lookup_points in Hp. destruct Hp as [_ ->].
    reflexivity.
Qed.

(** An instance: two points, one decimal place, a first draw of 0.75. *)
Lemma generatePoints_value_evolution_witness :
  exists (pts : list Point) (running : nat -> number),
    Format1.generatePoints exact_pow10 draws_075 2 1 = Ok (Array_of pts) /\
    length pts = Z.to_nat 2 /\
    running O = draws_075 O /\
    (forall k : nat,
       running (S k) = fadd (running k) (fsub (draws_075 (S k)) lit_0_5)) /\
    (forall (i : nat) (p : Point), pts !! i = Some p ->
       value p = fdiv (Math_round (fmul (running (S i)) (exact_pow10 1)))
                      (exact_pow10 1)).
Proof.
  apply (generatePoints_value_evolution exact_pow10 draws_075 2 1). lia.
Defined.

(** C6 as stated fails: with a first draw of 0.75 and a second of 0, the
    first point's value is 0 (the rounding of 0.75 + 0 - 0.5), not the
    rounding of the initial value 0.75, which is 1. *)
Lemma first_point_counterexample :
  exists p : Point,
    Format1.generatePoints exact_pow10 draws_075 1 0 = Ok [Some p] /\
    value p = S754_zero false /\
    fdiv (Math_round (fmul (draws_075 O) (exact_pow10 0)))
         (exact_pow10 0)
    = Z2number 1 /\
    value p <> fdiv (Math_round (fmul (draws_075 O) (exact_pow10 0)))
                    (exact_pow10 0).
Proof.
  eexists.
  split; [vm_compute; reflexivity|].
  split; [reflexivity|].
  split; [vm_compute; reflexivity|].
  vm_compute. discriminate.
Qed.

(** ** The bytes of a double *)

Lemma Z_of_byte_of_Z (z : Z) : Z_of_byte (byte_of_Z z) = z mod 256.
Proof.
  unfold Z_of_byte, byte_of_Z.
  pose proof (Z.mod_pos_bound z 256 ltac:(lia)) as Hr.
  destruct (Byte.of_N (Z.to_N (z mod 256))) as [b|] eqn:Hb.
  - apply Byte.to_of_N in Hb. rewrite Hb. lia.
  - apply Byte.of_N_None_iff in Hb. lia.
Qed.

(** Known encodings: 1 is 3ff0000000000000, -2.5 is c004000000000000,
    the first timestamp is 4278cc251f400000, 0.1 is 3fb999999999999a,
    NaN is 7ff8000000000000 and -0 is 8000000000000000. *)
Example doubleBE_known :
  doubleBE (Z2number 1) = [x3f; xf0; x00; x00; x00; x00; x00; x00]
  /\ doubleBE (S754_finite true 5629499534213120 (-51))
     = [xc0; x04; x00; x00; x00; x00; x00; x00]
  /\ doubleBE (Z2number basetime) = [x42; x78; xcc; x25; x1f; x40; x00; x00]
  /\ doubleBE (fdiv (Z2number 1) (Z2number 10))
     = [x3f; xb9; x99; x99; x99; x99; x99; x9a]
  /\ doubleBE S754_nan = [x7f; xf8; x00; x00; x00; x00; x00; x00]
  /\ doubleBE (S754_zero true) = [x80; x00; x00; x00; x00; x00; x00; x00].
Proof. repeat split; reflexivity. Qed.

Lemma length_doubleBE (x : number) : length (doubleBE x) = 8%nat.
Proof. reflexivity. Qed.

(** Lengths of concatenations: normalise, then linear arithmetic. *)
Create Rewrite HintDb len.

#[local] Hint Rewrite @length_app @length_map @length_drop @length_take
  @length_seq length_doubleBE : len.

Ltac len := autorewrite with len in *; cbn [length] in *; lia.

Lemma Z_of_bytesBE_bytesBE (w : Z) :
  0 <= w < 2 ^ 64 -> Z_of_bytesBE (bytesBE w) = w.
Proof.
  intros Hw. unfold Z_of_bytesBE, bytesBE. cbn [map fold_left].
  rewrite !Z_of_byte_of_Z.
  change (2 ^ 64) with 18446744073709551616 in Hw.
  change (2 ^ (8 * 7)) with 72057594037927936.
  change (2 ^ (8 * 6)) with 281474976710656.
  change (2 ^ (8 * 5)) with 1099511627776.
  change (2 ^ (8 * 4)) with 4294967296.
  change (2 ^ (8 * 3)) with 16777216.
  change (2 ^ (8 * 2)) with 65536.
  change (2 ^ (8 * 1)) with 256.
  change (2 ^ (8 * 0)) with 1.
  Z.div_mod_to_equations. lia.
Qed.

(** A valid finite double is normal (53 bits of mantissa) or subnormal
    (fewer bits, at the least exponent). *)
Lemma valid_finite (s : bool) (m : positive) (e : Z) :
  valid_number (S754_finite s m e) = true ->
  (2 ^ 52 <= Zpos m < 2 ^ 53 /\ -1074 <= e <= 971)
  \/ (Zpos m < 2 ^ 52 /\ e = -1074).
Proof.
  unfold valid_number, valid_binary, bounded, canonical_mantissa.
  rewrite andb_true_iff, Z.eqb_eq, Z.leb_le, Zdigits2_log2.
  unfold fexp, emin, emax, prec. intros [Hc He].
  pose proof (Z.log2_nonneg (Zpos m)) as Hnn.
  destruct (Z.le_gt_cases 52 (Z.log2 (Zpos m))) as [Hl|Hl].
  - left.
    assert (Z.log2 (Zpos m) = 52) by lia.
    pose proof (Z.log2_spec (Zpos m) ltac:(lia)) as Hs.
    replace (Z.log2 (Zpos m)) with 52 in Hs by lia.
    change (Z.succ 52) with 53 in Hs. lia.
  - right. split; [|lia].
    apply Z.log2_lt_cancel. change (Z.log2 (2 ^ 52)) with 52. lia.
Qed.

Lemma split_bits (S E F : Z) :
  0 <= S <= 1 -> 0 <= E < 2 ^ 11 -> 0 <= F < 2 ^ 52 ->
  let w := S * 2 ^ 63 + E * 2 ^ 52 + F in
  (w / 2 ^ 52) mod 2 ^ 11 = E /\ w mod 2 ^ 52 = F
  /\ (2 ^ 63 <=? w) = (S =? 1) /\ 0 <= w < 2 ^ 64.
Proof.
  change (2 ^ 11) with 2048. change (2 ^ 52) with 4503599627370496.
  change (2 ^ 63) with 9223372036854775808.
  change (2 ^ 64) with 18446744073709551616.
  intros HS HE HF w. subst w.
  split; [|split; [|split]].
  - Z.div_mod_to_equations. lia.
  - Z.div_mod_to_equations. lia.
  - destruct (Z.leb_spec 9223372036854775808
                (S * 9223372036854775808 + E * 4503599627370496 + F));
      destruct (Z.eqb_spec S 1); lia.
  - lia.
Qed.

Lemma join_bits_split (s : bool) (E F : Z) :
  0 <= E < 2 ^ 11 -> 0 <= F < 2 ^ 52 ->
  let w := join_bits s E F in
  (w / 2 ^ 52) mod 2 ^ 11 = E /\ w mod 2 ^ 52 = F
  /\ (2 ^ 63 <=? w) = s /\ 0 <= w < 2 ^ 64.
Proof.
  intros HE HF.
  pose proof (split_bits (if s then 1 else 0) E F
                ltac:(destruct s; lia) HE HF) as H.
  cbv zeta in *. unfold join_bits.
  replace ((if s then 2 ^ 63 else 0) + E * 2 ^ 52 + F)
    with ((if s then 1 else 0) * 2 ^ 63 + E * 2 ^ 52 + F)
    by (destruct s; lia).
  destruct H as (H1 & H2 & H3 & H4). repeat split; try assumption; try lia.
  rewrite H3. destruct s; reflexivity.
Qed.

(** The fields of the bit pattern of a valid double. *)
Lemma bits_of_number_fields (x : number) :
  valid_number x = true ->
  exists (s : bool) (E F : Z),
    bits_of_number x = join_bits s E F /\ 0 <= E < 2 ^ 11 /\ 0 <= F < 2 ^ 52
    /\ match x with
       | S754_zero s' => s = s' /\ E = 0 /\ F = 0
       | S754_infinity s' => s = s' /\ E = 2047 /\ F = 0
       | S754_nan => E = 2047 /\ F <> 0
       | S754_finite s' m e =>
           s = s' /\
           ((0 < E < 2047 /\ F + 2 ^ 52 = Zpos m /\ E - 1075 = e)
            \/ (E = 0 /\ F = Zpos m /\ e = -1074))
       end.
Proof.
  intros Hv. destruct x as [s|s| |s m e]; cbn [bits_of_number].
  - exists s, 0, 0. repeat split; lia.
  - exists s, 2047, 0. repeat split; lia.
  - exists false, 2047, (2 ^ 51). repeat split; lia.
  - apply valid_finite in Hv.
    destruct (Z.leb_spec (2 ^ 52) (Zpos m)) as [Hm|Hm].
    + exists s, (e + 1075), (Zpos m - 2 ^ 52).
      destruct Hv as [[Hm' He]|[Hm' He]]; [|lia].
      split; [reflexivity|]. split; [lia|]. split; [lia|].
      split; [reflexivity|]. left. lia.
    + exists s, 0, (Zpos m).
      destruct Hv as [[Hm' He]|[Hm' He]]; [lia|].
      split; [reflexivity|]. split; [lia|]. split; [lia|].
      split; [reflexivity|]. right. lia.
Qed.

Lemma bits_of_number_range (x : number) :
  valid_number x = true -> 0 <= bits_of_number x < 2 ^ 64.
Proof.
  intros Hv. destruct (bits_of_number_fields x Hv) as (s & E & F & -> & HE & HF & _).
  apply (join_bits_split s E F HE HF).
Qed.

(** Decoding the bit pattern of a double gives the double. *)
Lemma number_of_bits_of_number (x : number) :
  valid_number x = true -> number_of_bits (bits_of_number x) = x.
Proof.
  intros Hv.
  destruct (bits_of_number_fields x Hv) as (s & E & F & -> & HE & HF & Hx).
  destruct (join_bits_split s E F HE HF) as (HE' & HF' & Hs & _).
  unfold number_of_bits. rewrite HE', HF', Hs.
  destruct x as [s'|s'| |s' m e].
  - destruct Hx as (-> & -> & ->). reflexivity.
  - destruct Hx as (-> & -> & ->). reflexivity.
  - destruct Hx as (-> & HFn). cbn [Z.eqb].
    destruct (Z.eqb_spec F 0); [contradiction|reflexivity].
  - destruct Hx as (-> & [(HEr & HFm & He)|(-> & -> & ->)]).
    + destruct (Z.eqb_spec E 0); [lia|].
      destruct (Z.eqb_spec E 2047); [lia|].
      rewrite HFm, He. reflexivity.
    + reflexivity.
Qed.

(** Reading back the eight bytes written for a double gives the
    double. *)
Lemma decode_doubleBE (x : number) :
  valid_number x = true ->
  number_of_bits (Z_of_bytesBE (doubleBE x)) = x.
Proof.
  intros Hv. unfold doubleBE.
  rewrite Z_of_bytesBE_bytesBE by (apply bits_of_number_range; exact Hv).
  apply number_of_bits_of_number. exact Hv.
Qed.

(** ** The binary encoders *)

Lemma writeDoubleBE_at (v : number) (offset : nat) (A B : list cell) :
  offset = length A -> (8 <= length B)%nat ->
  writeDoubleBE v offset (A ++ B)
  = Ok (A ++ map Written (doubleBE v) ++ drop 8 B).
Proof.
  intros -> HB. unfold writeDoubleBE.
  destruct (Nat.leb_spec (length A + 8) (length (A ++ B))) as [_|H].
  - rewrite take_app_length. rewrite drop_app_ge by lia.
    replace (length A + 8 - length A)%nat with 8%nat by lia. reflexivity.
  - len.
Qed.

Lemma readDoubleBE_at (v : number) (offset : nat) (A C : list cell) :
  offset = length A -> valid_number v = true ->
  readDoubleBE offset (A ++ map Written (doubleBE v) ++ C) = Ok v.
Proof.
  intros -> Hv. unfold readDoubleBE.
  destruct (Nat.leb_spec (length A + 8)
              (length (A ++ map Written (doubleBE v) ++ C))) as [_|H].
  - rewrite drop_app_length.
    replace 8%nat with (length (map Written (doubleBE v))) at 1
      by (rewrite length_map; apply length_doubleBE).
    rewrite take_app_length, map_map. cbn [cell_byte]. rewrite map_id.
    f_equal. apply decode_doubleBE. exact Hv.
  - len.
Qed.

Lemma Array_get_middle {A : Type} (done todo : list A) (x : A) (i : nat) :
  i = length done -> Array_get (Array_of (done ++ x :: todo)) i = Some x.
Proof.
  intros ->. unfold Array_get, Array_of.
  change (map Some ?l) with (Some <$> l).
  rewrite list_lookup_fmap, list_lookup_middle by reflexivity. reflexivity.
Qed.

Lemma length_Array_of {A : Type} (l : list A) : length (Array_of l) = length l.
Proof. apply length_map. Qed.

Lemma length_allocUnsafe (pool : nat -> byte) (size : nat) :
  length (Buffer_allocUnsafe pool size) = size.
Proof. unfold Buffer_allocUnsafe. len. Qed.

Lemma encodeBinaryPairs_step (done todo : list Point) (p : Point)
    (W rest : list cell) :
  length W = (length done * 16)%nat -> (16 <= length rest)%nat ->
  Format1.encodeBinaryPairs_body (Array_of (done ++ p :: todo))
    (length done) (W ++ rest)
  = Ok ((W ++ map Written (doubleBE (getTime (time p)) ++ doubleBE (value p)))
          ++ drop 16 rest).
Proof.
  intros HW Hrest. unfold Format1.encodeBinaryPairs_body.
  rewrite Array_get_middle by reflexivity.
  cbn [defined mbind result_bind].
  rewrite writeDoubleBE_at by lia.
  cbn [mbind result_bind].
  rewrite (app_assoc W).
  rewrite writeDoubleBE_at
    by len.
  rewrite drop_drop, map_app, <- !app_assoc. reflexivity.
Qed.

(** The loop of [encodeBinaryPairs] with the points [done] encoded in
    [W] and the points [todo] to go: it fills the rest, whatever it
    held. *)
Lemma encodeBinaryPairs_loop (todo done : list Point) (W rest : list cell) :
  length W = (length done * 16)%nat ->
  length rest = (length todo * 16)%nat ->
  for_loop (length todo) (length done)
    (Format1.encodeBinaryPairs_body (Array_of (done ++ todo))) (W ++ rest)
  = Ok (W ++ map Written (pairs_layout todo)).
Proof.
  revert done W rest.
  induction todo as [|p todo IH]; intros done W rest HW Hrest.
  - destruct rest; [|discriminate]. reflexivity.
  - cbn [length] in Hrest. cbn [length for_loop].
    rewrite encodeBinaryPairs_step by lia.
    cbn [mbind result_bind].
    replace (done ++ p :: todo) with ((done ++ [p]) ++ todo)
      by (rewrite <- app_assoc; reflexivity).
    replace (S (length done)) with (length (done ++ [p]))
      by (rewrite length_app; cbn; lia).
    rewrite IH.
    + cbn [pairs_layout flat_map]. rewrite !map_app, <- !app_assoc. reflexivity.
    + len.
    + len.
Qed.

Lemma encodeBinaryPairs_spec (pool : nat -> byte) (ps : list Point) :
  Format1.encodeBinaryPairs pool (Array_of ps)
  = Ok (map Written (pairs_layout ps)).
Proof.
  unfold Format1.encodeBinaryPairs. rewrite length_Array_of.
  apply (encodeBinaryPairs_loop ps [] []).
  - reflexivity.
  - apply length_allocUnsafe.
Qed.

Lemma encodeBinarySets_step (done todo : list Point) (p : Point)
    (T restT V restV : list cell) :
  length T = (length done * 8)%nat ->
  length restT = (S (length todo) * 8)%nat ->
  length V = (length done * 8)%nat ->
  (8 <= length restV)%nat ->
  Format1.encodeBinarySets_body (Array_of (done ++ p :: todo))
    (length (done ++ p :: todo) * 8) (length done)
    (T ++ restT ++ V ++ restV)
  = Ok ((T ++ map Written (doubleBE (getTime (time p)))) ++ drop 8 restT
          ++ (V ++ map Written (doubleBE (value p))) ++ drop 8 restV).
Proof.
  intros HT HrT HV HrV. unfold Format1.encodeBinarySets_body.
  rewrite Array_get_middle by reflexivity.
  cbn [defined mbind result_bind].
  rewrite writeDoubleBE_at by len.
  cbn [mbind result_bind].
  rewrite drop_app_le by lia.
  set (Wt := map Written (doubleBE (getTime (time p)))).
  assert (HWt : length Wt = 8%nat) by reflexivity.
  replace (T ++ Wt ++ drop 8 restT ++ V ++ restV)
    with ((T ++ Wt ++ drop 8 restT ++ V) ++ restV)
    by (rewrite <- !app_assoc; reflexivity).
  rewrite writeDoubleBE_at.
  - rewrite <- !app_assoc. reflexivity.
  - len.
  - lia.
Qed.

(** The loop of [encodeBinarySets]: the timestamps so far in [T], the
    values so far in [V], each followed by room for what is to go. *)
Lemma encodeBinarySets_loop (todo done : list Point)
    (T restT V restV : list cell) :
  length T = (length done * 8)%nat ->
  length restT = (length todo * 8)%nat ->
  length V = (length done * 8)%nat ->
  length restV = (length todo * 8)%nat ->
  for_loop (length todo) (length done)
    (Format1.encodeBinarySets_body (Array_of (done ++ todo))
       (length (done ++ todo) * 8))
    (T ++ restT ++ V ++ restV)
  = Ok (T ++ map Written (times_layout todo)
          ++ V ++ map Written (values_layout todo)).
Proof.
  revert done T restT V restV.
  induction todo as [|p todo IH]; intros done T restT V restV HT HrT HV HrV.
  - destruct restT; [|discriminate]. destruct restV; [|discriminate].
    reflexivity.
  - cbn [length] in HrT, HrV. cbn [length for_loop].
    rewrite encodeBinarySets_step by (cbn [length]; lia).
    cbn [mbind result_bind].
    replace (done ++ p :: todo) with ((done ++ [p]) ++ todo)
      by (rewrite <- app_assoc; reflexivity).
    replace (S (length done)) with (length (done ++ [p]))
      by (rewrite length_app; cbn; lia).
    rewrite IH.
    + cbn [times_layout values_layout flat_map].
      rewrite !map_app, <- !app_assoc. reflexivity.
    + len.
    + len.
    + len.
    + len.
Qed.

Lemma encodeBinarySets_spec (pool : nat -> byte) (ps : list Point) :
  Format1.encodeBinarySets pool (Array_of ps)
  = Ok (map Written (sets_layout ps)).
Proof.
  unfold Format1.encodeBinarySets. rewrite length_Array_of.
  pose proof (encodeBinarySets_loop ps [] []
                (take (length ps * 8) (Buffer_allocUnsafe pool (length ps * 16)))
                []
                (drop (length ps * 8) (Buffer_allocUnsafe pool (length ps * 16))))
    as H.
  cbn [app length] in H. rewrite take_drop in H.
  rewrite H.
  - unfold sets_layout. rewrite map_app. reflexivity.
  - reflexivity.
  - rewrite length_take, length_allocUnsafe. lia.
  - reflexivity.
  - rewrite length_drop, length_allocUnsafe. lia.
Qed.

Lemma length_pairs_layout (ps : list Point) :
  length (pairs_layout ps) = (16 * length ps)%nat.
Proof.
  induction ps as [|p ps IH]; [reflexivity|].
  cbn [pairs_layout flat_map length]. fold (pairs_layout ps).
  rewrite !length_app, !length_doubleBE, IH. lia.
Qed.

Lemma length_times_layout (ps : list Point) :
  length (times_layout ps) = (8 * length ps)%nat.
Proof.
  induction ps as [|p ps IH]; [reflexivity|].
  cbn [times_layout flat_map length]. fold (times_layout ps).
  rewrite length_app, length_doubleBE, IH. lia.
Qed.

Lemma length_values_layout (ps : list Point) :
  length (values_layout ps) = (8 * length ps)%nat.
Proof.
  induction ps as [|p ps IH]; [reflexivity|].
  cbn [values_layout flat_map length]. fold (values_layout ps).
  rewrite length_app, length_doubleBE, IH. lia.
Qed.

Lemma length_sets_layout (ps : list Point) :
  length (sets_layout ps) = (16 * length ps)%nat.
Proof.
  unfold sets_layout.
  rewrite length_app, length_times_layout, length_values_layout. lia.
Qed.

#[local] Hint Rewrite length_pairs_layout length_times_layout
  length_values_layout length_sets_layout : len.

Lemma pairs_layout_app (ps qs : list Point) :
  pairs_layout (ps ++ qs) = pairs_layout ps ++ pairs_layout qs.
Proof. apply flat_map_app. Qed.

Lemma times_layout_app (ps qs : list Point) :
  times_layout (ps ++ qs) = times_layout ps ++ times_layout qs.
Proof. apply flat_map_app. Qed.

Lemma values_layout_app (ps qs : list Point) :
  values_layout (ps ++ qs) = values_layout ps ++ values_layout qs.
Proof. apply flat_map_app. Qed.

(** C7: for every sequence of [n] points each encoder returns a buffer
    of exactly [16 * n] bytes. *)
Theorem encoders_length (pool : nat -> byte) (ps : list Point) :
  exists pairs sets : list cell,
    Format1.encodeBinaryPairs pool (Array_of ps) = Ok pairs /\
    length pairs = (16 * length ps)%nat /\
    Format1.encodeBinarySets pool (Array_of ps) = Ok sets /\
    length sets = (16 * length ps)%nat.
Proof.
  exists (map Written (pairs_layout ps)), (map Written (sets_layout ps)).
  split; [apply encodeBinaryPairs_spec|].
  split; [len|].
  split; [apply encodeBinarySets_spec|].
  len.
Qed.

(** C8: the encoders are deterministic: two runs on the same points,
    each with its own uninitialised memory, return the same buffer. *)
Theorem encoders_deterministic (pool1 pool2 : nat -> byte) (ps : list Point) :
  exists pairs sets : list cell,
    Format1.encodeBinaryPairs pool1 (Array_of ps) = Ok pairs /\
    Format1.encodeBinaryPairs pool2 (Array_of ps) = Ok pairs /\
    Format1.encodeBinarySets pool1 (Array_of ps) = Ok sets /\
    Format1.encodeBinarySets pool2 (Array_of ps) = Ok sets.
Proof.
  exists (map Written (pairs_layout ps)), (map Written (sets_layout ps)).
  repeat split;
    first [apply encodeBinaryPairs_spec | apply encodeBinarySets_spec].
Qed.

(** C10: every byte of the buffer an encoder returns was written by its
    loop; nothing of what [Buffer.allocUnsafe] handed out stays. *)
Theorem encoders_write_every_byte (pool : nat -> byte) (ps : list Point) :
  exists pairs sets : list cell,
    Format1.encodeBinaryPairs pool (Array_of ps) = Ok pairs /\
    length pairs = (16 * length ps)%nat /\
    Forall (fun c => is_written c = true) pairs /\
    Format1.encodeBinarySets pool (Array_of ps) = Ok sets /\
    length sets = (16 * length ps)%nat /\
    Forall (fun c => is_written c = true) sets.
Proof.
  assert (Hw : forall bs : list byte,
            Forall (fun c => is_written c = true) (map Written bs)).
  { intros bs. induction bs as [|b bs IH]; constructor; [reflexivity|exact IH]. }
  exists (map Written (pairs_layout ps)), (map Written (sets_layout ps)).
  split; [apply encodeBinaryPairs_spec|].
  split; [len|].
  split; [apply Hw|].
  split; [apply encodeBinarySets_spec|].
  split; [len|apply Hw].
Qed.

(** C2: reading the doubles back from either layout at the documented
    offsets gives the timestamp and the value of point [i]. *)
Theorem binary_round_trip (pool : nat -> byte) (ps : list Point)
    (i : nat) (p : Point) :
  ps !! i = Some p ->
  valid_number (getTime (time p)) = true ->
  valid_number (value p) = true ->
  exists pairs sets : list cell,
    Format1.encodeBinaryPairs pool (Array_of ps) = Ok pairs /\
    readDoubleBE (16 * i) pairs = Ok (getTime (time p)) /\
    readDoubleBE (16 * i + 8) pairs = Ok (value p) /\
    Format1.encodeBinarySets pool (Array_of ps) = Ok sets /\
    readDoubleBE (8 * i) sets = Ok (getTime (time p)) /\
    readDoubleBE (8 * length ps + 8 * i) sets = Ok (value p).
Proof.
  intros Hp Ht Hv.
  exists (map Written (pairs_layout ps)), (map Written (sets_layout ps)).
  pose proof (take_drop_middle ps i p Hp) as Hps.
  assert (Hi : length (take i ps) = i).
  { apply length_take_le. apply lookup_lt_Some in Hp. lia. }
  set (done := take i ps) in *. set (todo := drop (S i) ps) in *.
  clearbody done todo. subst ps.
  split; [apply encodeBinaryPairs_spec|].
  split; [|split; [|split; [apply encodeBinarySets_spec|split]]].
  - rewrite pairs_layout_app.
    change (pairs_layout (p :: todo))
      with ((doubleBE (getTime (time p)) ++ doubleBE (value p))
              ++ pairs_layout todo).
    rewrite !map_app, <- ?app_assoc.
    apply readDoubleBE_at; [|exact Ht].
    len.
  - rewrite pairs_layout_app.
    change (pairs_layout (p :: todo))
      with ((doubleBE (getTime (time p)) ++ doubleBE (value p))
              ++ pairs_layout todo).
    rewrite !map_app, <- ?app_assoc.
    rewrite (app_assoc (map Written (pairs_layout done))).
    apply readDoubleBE_at; [|exact Hv].
    len.
  - unfold sets_layout. rewrite times_layout_app.
    change (times_layout (p :: todo))
      with (doubleBE (getTime (time p)) ++ times_layout todo).
    rewrite !map_app, <- ?app_assoc.
    apply readDoubleBE_at; [|exact Ht].
    len.
  - unfold sets_layout. rewrite values_layout_app.
    change (values_layout (p :: todo))
      with (doubleBE (value p) ++ values_layout todo).
    rewrite !map_app, <- ?app_assoc.
    rewrite (app_assoc (map Written (times_layout (done ++ p :: todo)))).
    apply readDoubleBE_at; [|exact Hv].
    len.
Qed.

(** An instance: the second of two points, its value -2.5. *)
Lemma binary_round_trip_witness :
  let p := mkPoint (mkDate (canon (basetime + hour)))
                   (S754_finite true 5629499534213120 (-51)) in
  let ps := [mkPoint (mkDate (canon basetime)) (S754_zero true); p] in
  exists pairs sets : list cell,
    Format1.encodeBinaryPairs (pool_of x00) (Array_of ps) = Ok pairs /\
    readDoubleBE (16 * 1) pairs = Ok (getTime (time p)) /\
    readDoubleBE (16 * 1 + 8) pairs = Ok (value p) /\
    Format1.encodeBinarySets (pool_of x00) (Array_of ps) = Ok sets /\
    readDoubleBE (8 * 1) sets = Ok (getTime (time p)) /\
    readDoubleBE (8 * length ps + 8 * 1) sets = Ok (value p).
Proof.
  intros p ps.
  apply (binary_round_trip (pool_of x00) ps 1 p); reflexivity.
Defined.

(** ** CSV *)

Section CsvProperties.
Variable Date_toISOString : Date -> result string.
Variable Number_toString : number -> string.

Lemma Array_map_csv_line (ps : list Point) (lines : list string) :
  Forall2 (fun p line =>
             Format1.csv_line Date_toISOString Number_toString p = Ok line)
          ps lines ->
  Array_map (Format1.csv_line Date_toISOString Number_toString) (Array_of ps)
  = Ok (Array_of lines).
Proof.
  induction 1 as [|p line ps lines Hp _ IH]; [reflexivity|].
  cbn [Array_of map Array_map]. rewrite Hp. cbn [mbind result_bind].
  unfold Array_of in IH. rewrite IH. reflexivity.
Qed.

Lemma Array_join_Array_of (sep : string) (lines : list string) :
  Array_join sep (Array_of lines) = String.concat sep lines.
Proof.
  unfold Array_join, Array_of. rewrite map_map. cbn [default].
  rewrite map_id. reflexivity.
Qed.

(** C5, as amended: the CSV text is the header, a line feed, and the
    point lines joined by line feeds.  For no point it is
    "time,value" followed by a line feed; for one point or more it is
    the header and the point lines joined by line feeds, with nothing
    after the last line. *)
Theorem csv_layout (pw : pow10) (rs : draws) (d : Z)
    (ps : list Point) (lines : list string) :
  Forall2 (fun p line =>
             Format1.csv_line Date_toISOString Number_toString p = Ok line)
          ps lines ->
  Format1.csv_route Date_toISOString Number_toString pw rs 0 d
  = Ok ("time,value" ++ newline)%string
  /\ Format1.csv_data Date_toISOString Number_toString (Array_of ps)
     = Ok (match lines with
           | [] => "time,value" ++ newline
           | _ :: _ => String.concat newline ("time,value" :: lines)
           end)%string
  /\ length lines = length ps.
Proof.
  intros Hlines. split; [reflexivity|]. split.
  - unfold Format1.csv_data.
    rewrite (Array_map_csv_line ps lines Hlines). cbn [mbind result_bind].
    rewrite Array_join_Array_of.
    destruct lines as [|l lines]; reflexivity.
  - symmetry. eapply Forall2_length. exact Hlines.
Qed.
End CsvProperties.

(** An instance: one point, with conversions to text that return fixed
    strings. *)
Lemma csv_layout_witness :
  let toISO := fun _ : Date => Ok "2024-01-01T00:00:00.000Z"%string in
  let toStr := fun _ : number => "-2"%string in
  let ps := [mkPoint (mkDate (canon basetime)) (Z2number (-2))] in
  let lines := ["2024-01-01T00:00:00.000Z,-2"%string] in
  Format1.csv_route toISO toStr exact_pow10 zero_draws 0 2
  = Ok ("time,value" ++ newline)%string
  /\ Format1.csv_data toISO toStr (Array_of ps)
     = Ok (String.concat newline ("time,value" :: lines))%string
  /\ length lines = length ps.
Proof.
  intros toISO toStr ps lines.
  apply (csv_layout toISO toStr exact_pow10 zero_draws 2 ps lines).
  repeat constructor.
Defined.

(** C5 as stated fails for no point: whatever the conversions to text,
    the CSV text is "time,value" followed by a line feed, which is not
    "time,value". *)
Lemma csv_empty_counterexample :
  (forall (toISO : Date -> result string) (toStr : number -> string),
     Format1.csv_route toISO toStr exact_pow10 zero_draws 0 0
     = Ok ("time,value" ++ newline)%string)
  /\ ("time,value" ++ newline)%string <> "time,value"%string.
Proof. split; [reflexivity|discriminate]. Qed.

(** ** The two source files *)

(** C9: [generatePoints], [encodeBinaryPairs] and [encodeBinarySets] of
    [src/encoding-time-series-data.ts] return what those of
    [src/unnamed/part_000] return: on every input, for the same draws and
    the same memory; and for a sequence of points, the encoders of the
    two files return the same buffer whatever memory each run was
    given. *)
Theorem format2_equals_format1 :
  (forall (pw : pow10) (rs : draws) (pointCount decimalPlaces : Z),
     Format2.generatePoints pw rs pointCount decimalPlaces
     = Format1.generatePoints pw rs pointCount decimalPlaces)
  /\ (forall (pool : nat -> byte) (points : list (option Point)),
        Format2.encodeBinaryPairs pool points
        = Format1.encodeBinaryPairs pool points)
  /\ (forall (pool : nat -> byte) (points : list (option Point)),
        Format2.encodeBinarySets pool points
        = Format1.encodeBinarySets pool points)
  /\ (forall (pool1 pool2 : nat -> byte) (ps : list Point),
        Format2.encodeBinaryPairs pool2 (Array_of ps)
        = Format1.encodeBinaryPairs pool1 (Array_of ps)
        /\ Format2.encodeBinarySets pool2 (Array_of ps)
           = Format1.encodeBinarySets pool1 (Array_of ps)).
Proof.
  assert (Hpairs : forall pool points,
            Format2.encodeBinaryPairs pool points
            = Format1.encodeBinaryPairs pool points).
  { intros pool points.
    unfold Format2.encodeBinaryPairs, Format1.encodeBinaryPairs.
    reflexivity. }
  assert (Hsets : forall pool points,
            Format2.encodeBinarySets pool points
            = Format1.encodeBinarySets pool points).
  { intros pool points.
    unfold Format2.encodeBinarySets, Format1.encodeBinarySets.
    reflexivity. }
  split; [|split; [exact Hpairs|split; [exact Hsets|]]].
  - intros pw rs pointCount decimalPlaces.
    unfold Format2.generatePoints, Format1.generatePoints. reflexivity.
  - intros pool1 pool2 ps. rewrite Hpairs, Hsets.
    rewrite !encodeBinaryPairs_spec, !encodeBinarySets_spec.
    split; reflexivity.
Qed.

(** * Further properties *)

(** ** [generatePoints]: errors, draws, dates past the range *)

(** [generatePoints] throws exactly when [new Array] does, for a count
    below zero or from [2^32] on, and then a RangeError; otherwise it
    returns [pointCount] slots, none of them a hole. *)
Theorem generatePoints_result (pw : pow10) (rs : draws) (n d : Z) :
  match Format1.generatePoints pw rs n d with
  | Ok pts =>
      0 <= n < 2 ^ 32 /\ length pts = Z.to_nat n
      /\ Forall (fun slot => slot <> None) pts
  | Throw e => e = RangeError /\ (n < 0 \/ 2 ^ 32 <= n)
  end.
Proof.
  destruct (Z.lt_ge_cases n 0) as [Hneg|Hnn].
  - unfold Format1.generatePoints, new_Array.
    destruct (Z.leb_spec 0 n) as [H|_]; [lia|]. cbn. split; [reflexivity|lia].
  - destruct (Z.lt_ge_cases n (2 ^ 32)) as [Hlt|Hge].
    + rewrite generatePoints_spec by lia. split; [lia|]. split.
      * unfold points_upto. rewrite length_map, length_seq. reflexivity.
      * unfold points_upto. apply Forall_forall. intros slot Hin.
        apply list_elem_of_In, in_map_iff in Hin.
        destruct Hin as (i & <- & _). discriminate.
    + unfold Format1.generatePoints, new_Array.
      destruct (Z.leb_spec 0 n) as [_|H]; [|lia].
      destruct (Z.ltb_spec n (2 ^ 32)) as [H|_]; [lia|].
      cbn. split; [reflexivity|lia].
Qed.

Lemma randomValue_after_ext (rs rs' : draws) (k : nat) :
  (forall j : nat, (j <= k)%nat -> rs j = rs' j) ->
  randomValue_after rs k = randomValue_after rs' k.
Proof.
  induction k as [|k IH]; intros H.
  - cbn. apply H. lia.
  - cbn [randomValue_after]. rewrite IH by (intros j Hj; apply H; lia).
    rewrite (H (S k)) by lia. reflexivity.
Qed.

(** [generatePoints] calls [Math.random] once before the loop and once
    per turn.  For a count [n] that [new Array] accepts, the loop, run
    from the state the function sets up (one draw taken), ends with
    [n + 1] draws taken, its running value being the first draw to which
    each of the [n] next draws, less 0.5, was added in turn, and the
    function returns the array of that state.  The result depends on
    these draws only: runs whose draws agree up to index [n] return the
    same. *)
Theorem generatePoints_draws_used (pw : pow10) (rs rs' : draws) (n d : Z) :
  (forall k : nat, Z.of_nat k <= n -> rs k = rs' k) ->
  (0 <= n < 2 ^ 32 ->
   exists st : gp_state,
     for_loop (Z.to_nat n) 0
       (Format1.generatePoints_body rs (Math_pow10 pw d))
       (mkGp (new_Date_ymd 2024 1 1) (rs O) 1 (replicate (Z.to_nat n) None))
     = Ok st
     /\ gp_next st = S (Z.to_nat n)
     /\ gp_randomValue st = randomValue_after rs (Z.to_nat n)
     /\ Format1.generatePoints pw rs n d = Ok (gp_output st))
  /\ Format1.generatePoints pw rs n d = Format1.generatePoints pw rs' n d.
Proof.
  intros Hrs. split.
  - intros Hn.
    pose proof (generatePoints_loop rs (Math_pow10 pw d) (Z.to_nat n) 0) as H.
    cbn [time_after randomValue_after points_upto seq map app Nat.add] in H.
    eexists. split; [exact H|].
    cbn [gp_next gp_randomValue gp_output].
    split; [reflexivity|]. split; [reflexivity|].
    apply generatePoints_spec. exact Hn.
  - destruct (Z.lt_ge_cases n 0) as [Hneg|Hnn];
      [|destruct (Z.lt_ge_cases n (2 ^ 32)) as [Hlt|Hge]].
    + unfold Format1.generatePoints, new_Array.
      destruct (Z.leb_spec 0 n) as [H|_]; [lia|]. reflexivity.
    + rewrite !generatePoints_spec by lia. f_equal.
      unfold points_upto. apply map_ext_in. intros i Hi.
      apply in_seq in Hi. unfold point_at.
      rewrite (randomValue_after_ext rs rs' (S i)); [reflexivity|].
      intros j Hj. apply Hrs. lia.
    + unfold Format1.generatePoints, new_Array.
      destruct (Z.leb_spec 0 n) as [_|H]; [|lia].
      destruct (Z.ltb_spec n (2 ^ 32)) as [H|_]; [lia|]. reflexivity.
Qed.

(** An instance: three points take four draws. *)
Lemma generatePoints_draws_used_witness :
  (exists st : gp_state,
     for_loop 3 0
       (Format1.generatePoints_body zero_draws (exact_pow10 2))
       (mkGp (new_Date_ymd 2024 1 1) (zero_draws O) 1 (replicate 3 None))
     = Ok st
     /\ gp_next st = 4%nat
     /\ gp_randomValue st = randomValue_after zero_draws 3
     /\ Format1.generatePoints exact_pow10 zero_draws 3 2
        = Ok (gp_output st))
  /\ Format1.generatePoints exact_pow10 zero_draws 3 2
     = Format1.generatePoints exact_pow10 zero_then_075 3 2.
Proof.
  destruct (generatePoints_draws_used exact_pow10 zero_draws zero_then_075
              3 2) as [Hst Heq].
  - intros [|[|[|[|k]]]] Hk; try reflexivity. lia.
  - split; [apply Hst; lia|exact Heq].
Defined.

Lemma time_after_invalid_from (k : nat) :
  lastIndex < Z.of_nat k -> time_after k = mkDate S754_nan.
Proof.
  induction k as [|k IH]; intros Hk.
  - unfold lastIndex in Hk. lia.
  - destruct (Z.eq_dec (Z.of_nat k) lastIndex) as [Heq|Hne].
    + apply time_after_invalid. exact Heq.
    + cbn [time_after]. rewrite IH by lia. reflexivity.
Qed.

(** Past index 2399526648 every timestamp is an invalid date: the time
    value left the range of [Date] and stays NaN. *)
Theorem generatePoints_invalid_dates (pw : pow10) (rs : draws) (n d : Z)
    (i : nat) :
  n < 2 ^ 32 -> lastIndex < Z.of_nat i < n ->
  exists (pts : list (option Point)) (p : Point),
    Format1.generatePoints pw rs n d = Ok pts /\
    pts !! i = Some (Some p) /\
    getTime (time p) = S754_nan.
Proof.
  intros Hn Hi.
  exists (points_upto rs (Math_pow10 pw d) (Z.to_nat n)),
         (point_at rs (Math_pow10 pw d) i).
  split; [apply generatePoints_spec; unfold lastIndex in Hi; lia|].
  split; [apply points_upto_lookup; lia|].
  unfold point_at. cbn [time].
  rewrite time_after_invalid_from by lia. reflexivity.
Qed.

(** An instance: 2399526652 points, the one with index 2399526650. *)
Lemma generatePoints_invalid_dates_witness :
  exists (pts : list (option Point)) (p : Point),
    Format1.generatePoints exact_pow10 zero_draws 2399526652 0 = Ok pts /\
    pts !! Z.to_nat 2399526650 = Some (Some p) /\
    getTime (time p) = S754_nan.
Proof.
  apply (generatePoints_invalid_dates exact_pow10 zero_draws 2399526652 0
           (Z.to_nat 2399526650)).
  - lia.
  - unfold lastIndex. lia.
Defined.

(** With the same draws a shorter run is a prefix of a longer one: the
    first [k] points of [generatePoints(n, d)] are the points of
    [generatePoints(k, d)]. *)
Theorem generatePoints_prefix (pw : pow10) (rs : draws) (k n d : Z) :
  0 <= k <= n -> n < 2 ^ 32 ->
  exists pts : list (option Point),
    Format1.generatePoints pw rs n d = Ok pts /\
    Format1.generatePoints pw rs k d = Ok (take (Z.to_nat k) pts).
Proof.
  intros Hk Hn.
  exists (points_upto rs (Math_pow10 pw d) (Z.to_nat n)).
  split; [apply generatePoints_spec; lia|].
  rewrite generatePoints_spec by lia. f_equal.
  unfold points_upto. rewrite firstn_map, take_seq.
  replace (Z.to_nat k `min` Z.to_nat n)%nat with (Z.to_nat k) by lia.
  reflexivity.
Qed.

(** An instance: two points and five points. *)
Lemma generatePoints_prefix_witness :
  exists pts : list (option Point),
    Format1.generatePoints exact_pow10 draws_075 5 2 = Ok pts /\
    Format1.generatePoints exact_pow10 draws_075 2 2
    = Ok (take (Z.to_nat 2) pts).
Proof.
  apply (generatePoints_prefix exact_pow10 draws_075 2 5 2); lia.
Defined.

(** ** The encoders: holes, the two layouts side by side, injectivity *)

(** A loop whose turns keep an invariant or throw [e], and one of whose
    turns throws [e] whenever it is reached, throws [e]. *)
Lemma for_loop_throws {St : Type} (Inv : St -> Prop)
    (body : nat -> St -> result St) (e : exn) (count i : nat) (s : St) :
  Inv s ->
  (forall (j : nat) (s : St), (i <= j < i + count)%nat -> Inv s ->
     (exists s', body j s = Ok s' /\ Inv s') \/ body j s = Throw e) ->
  (exists j : nat, (i <= j < i + count)%nat /\
                   forall s : St, Inv s -> body j s = Throw e) ->
  for_loop count i body s = Throw e.
Proof.
  revert i s. induction count as [|count IH]; intros i s Hs Hstep Hbad.
  - destruct Hbad as (j & Hj & _). lia.
  - cbn [for_loop]. destruct Hbad as (j & Hj & Hthrow).
    destruct (Hstep i s ltac:(lia) Hs) as [(s' & Hok & Hs')|Hth].
    + rewrite Hok. cbn [mbind result_bind].
      apply IH; [exact Hs'| |].
      * intros k t Hk Ht. apply Hstep; [lia|exact Ht].
      * exists j. split; [|exact Hthrow].
        destruct (Nat.eq_dec j i) as [->|Hne]; [|lia].
        rewrite (Hthrow s Hs) in Hok. discriminate.
    + rewrite Hth. reflexivity.
Qed.

Lemma writeDoubleBE_fits (v : number) (offset : nat) (buf : list cell) :
  (offset + 8 <= length buf)%nat ->
  exists buf', writeDoubleBE v offset buf = Ok buf'
               /\ length buf' = length buf.
Proof.
  intros H. unfold writeDoubleBE.
  destruct (Nat.leb_spec (offset + 8) (length buf)) as [_|H']; [|lia].
  eexists. split; [reflexivity|]. len.
Qed.

Lemma encodeBinaryPairs_body_cases (points : list (option Point))
    (i : nat) (buf : list cell) :
  length buf = (length points * 16)%nat -> (i < length points)%nat ->
  match Array_get points i with
  | Some p => exists buf', Format1.encodeBinaryPairs_body points i buf = Ok buf'
                           /\ length buf' = length buf
  | None => Format1.encodeBinaryPairs_body points i buf = Throw TypeError
  end.
Proof.
  intros Hlen Hi. unfold Format1.encodeBinaryPairs_body.
  destruct (Array_get points i) as [p|]; [|reflexivity].
  cbn [defined mbind result_bind].
  destruct (writeDoubleBE_fits (getTime (time p)) (i * 16) buf ltac:(lia))
    as (b1 & -> & H1).
  cbn [mbind result_bind].
  destruct (writeDoubleBE_fits (value p) (i * 16 + 8) b1 ltac:(lia))
    as (b2 & -> & H2).
  exists b2. split; [reflexivity|lia].
Qed.

Lemma encodeBinarySets_body_cases (points : list (option Point))
    (i : nat) (buf : list cell) :
  length buf = (length points * 16)%nat -> (i < length points)%nat ->
  match Array_get points i with
  | Some p =>
      exists buf',
        Format1.encodeBinarySets_body points (length points * 8) i buf = Ok buf'
        /\ length buf' = length buf
  | None =>
      Format1.encodeBinarySets_body points (length points * 8) i buf
      = Throw TypeError
  end.
Proof.
  intros Hlen Hi. unfold Format1.encodeBinarySets_body.
  destruct (Array_get points i) as [p|]; [|reflexivity].
  cbn [defined mbind result_bind].
  destruct (writeDoubleBE_fits (getTime (time p)) (i * 8) buf ltac:(lia))
    as (b1 & -> & H1).
  cbn [mbind result_bind].
  destruct (writeDoubleBE_fits (value p) (i * 8 + length points * 8) b1
              ltac:(lia)) as (b2 & -> & H2).
  exists b2. split; [reflexivity|lia].
Qed.

Lemma dense_or_hole {A : Type} (a : list (option A)) :
  (exists l : list A, a = Array_of l) \/ (exists i : nat, a !! i = Some None).
Proof.
  induction a as [|[x|] a IH].
  - left. exists []. reflexivity.
  - destruct IH as [(l & ->)|(i & Hi)].
    + left. exists (x :: l). reflexivity.
    + right. exists (S i). exact Hi.
  - right. exists O. reflexivity.
Qed.

Lemma encodeBinaryPairs_hole (pool : nat -> byte)
    (points : list (option Point)) (i : nat) :
  points !! i = Some None ->
  Format1.encodeBinaryPairs pool points = Throw TypeError.
Proof.
  intros Hi. unfold Format1.encodeBinaryPairs.
  apply (for_loop_throws (fun buf => length buf = (length points * 16)%nat)).
  - apply length_allocUnsafe.
  - intros j buf Hj Hbuf.
    pose proof (encodeBinaryPairs_body_cases points j buf Hbuf ltac:(lia)) as H.
    destruct (Array_get points j) as [p|].
    + destruct H as (buf' & Hok & Hlen). left. exists buf'.
      split; [exact Hok|lia].
    + right. exact H.
  - exists i. pose proof (lookup_lt_Some _ _ _ Hi) as Hlt. split; [lia|].
    intros buf Hbuf.
    pose proof (encodeBinaryPairs_body_cases points i buf Hbuf Hlt) as H.
    unfold Array_get in H. rewrite Hi in H. exact H.
Qed.

Lemma encodeBinarySets_hole (pool : nat -> byte)
    (points : list (option Point)) (i : nat) :
  points !! i = Some None ->
  Format1.encodeBinarySets pool points = Throw TypeError.
Proof.
  intros Hi. unfold Format1.encodeBinarySets.
  apply (for_loop_throws (fun buf => length buf = (length points * 16)%nat)).
  - apply length_allocUnsafe.
  - intros j buf Hj Hbuf.
    pose proof (encodeBinarySets_body_cases points j buf Hbuf ltac:(lia)) as H.
    destruct (Array_get points j) as [p|].
    + destruct H as (buf' & Hok & Hlen). left. exists buf'.
      split; [exact Hok|lia].
    + right. exact H.
  - exists i. pose proof (lookup_lt_Some _ _ _ Hi) as Hlt. split; [lia|].
    intros buf Hbuf.
    pose proof (encodeBinarySets_body_cases points i buf Hbuf Hlt) as H.
    unfold Array_get in H. rewrite Hi in H. exact H.
Qed.

Lemma Array_of_no_hole {A : Type} (l : list A) :
  Forall (fun slot => slot <> None) (Array_of l).
Proof.
  induction l as [|x l IH]; constructor; [discriminate|exact IH].
Qed.

(** The encoders throw exactly on an array with a hole, and then a
    TypeError (reading [time] of [undefined]); they never write out of
    the buffer.  On an array without hole they return sixteen bytes per
    point. *)
Theorem encoders_throw_on_holes_only (pool : nat -> byte)
    (points : list (option Point)) :
  match Format1.encodeBinaryPairs pool points with
  | Ok buf => Forall (fun slot => slot <> None) points
              /\ length buf = (16 * length points)%nat
  | Throw e => e = TypeError /\ exists i : nat, points !! i = Some None
  end
  /\ match Format1.encodeBinarySets pool points with
     | Ok buf => Forall (fun slot => slot <> None) points
                 /\ length buf = (16 * length points)%nat
     | Throw e => e = TypeError /\ exists i : nat, points !! i = Some None
     end.
Proof.
  destruct (dense_or_hole points) as [(ps & ->)|(i & Hi)].
  - rewrite encodeBinaryPairs_spec, encodeBinarySets_spec.
    split; (split; [apply Array_of_no_hole|]); rewrite length_Array_of; len.
  - rewrite (encodeBinaryPairs_hole pool points i Hi),
            (encodeBinarySets_hole pool points i Hi).
    split; (split; [reflexivity|exists i; exact Hi]).
Qed.

Lemma flat_map_lookup_chunk {A B : Type} (f : A -> list B) (c : nat)
    (l : list A) (i j : nat) (x : A) :
  (forall a : A, length (f a) = c) -> l !! i = Some x -> (j < c)%nat ->
  flat_map f l !! (c * i + j)%nat = f x !! j.
Proof.
  intros Hc. revert i. induction l as [|a l IH]; intros i Hi Hj.
  - discriminate.
  - cbn [flat_map]. destruct i as [|i].
    + injection Hi as ->. rewrite Nat.mul_0_r. cbn [Nat.add].
      apply lookup_app_l. rewrite Hc. exact Hj.
    + rewrite lookup_app_r by (rewrite Hc; lia).
      rewrite Hc. replace (c * S i + j - c)%nat with (c * i + j)%nat by lia.
      apply IH; assumption.
Qed.

(** The two layouts hold the same bytes, transposed: byte [j] of the
    timestamp of point [i] is at [16 i + j] in pairs and at [8 i + j] in
    sets; byte [j] of its value is at [16 i + 8 + j] in pairs and at
    [8 n + 8 i + j] in sets. *)
Theorem encoders_transposed (pool : nat -> byte) (ps : list Point) :
  exists pairs sets : list cell,
    Format1.encodeBinaryPairs pool (Array_of ps) = Ok pairs /\
    Format1.encodeBinarySets pool (Array_of ps) = Ok sets /\
    forall i j : nat, (i < length ps)%nat -> (j < 8)%nat ->
      pairs !! (16 * i + j)%nat = sets !! (8 * i + j)%nat
      /\ pairs !! (16 * i + 8 + j)%nat
         = sets !! (8 * length ps + 8 * i + j)%nat.
Proof.
  exists (map Written (pairs_layout ps)), (map Written (sets_layout ps)).
  split; [apply encodeBinaryPairs_spec|].
  split; [apply encodeBinarySets_spec|].
  intros i j Hi Hj.
  destruct (lookup_lt_is_Some_2 ps i Hi) as [p Hp].
  change (map Written ?l) with (Written <$> l).
  rewrite !list_lookup_fmap. unfold sets_layout, pairs_layout.
  assert (Ht : times_layout ps !! (8 * i + j)%nat
               = doubleBE (getTime (time p)) !! j).
  { unfold times_layout.
    apply (flat_map_lookup_chunk (fun q => doubleBE (getTime (time q))) 8
             ps i j p); [reflexivity|exact Hp|exact Hj]. }
  assert (Hv : values_layout ps !! (8 * i + j)%nat
               = doubleBE (value p) !! j).
  { unfold values_layout.
    apply (flat_map_lookup_chunk (fun q => doubleBE (value q)) 8
             ps i j p); [reflexivity|exact Hp|exact Hj]. }
  split; f_equal.
  - rewrite (flat_map_lookup_chunk
               (fun q => doubleBE (getTime (time q)) ++ doubleBE (value q))
               16 ps i j p); [|reflexivity|exact Hp|lia].
    rewrite lookup_app_l by (rewrite length_doubleBE; lia).
    rewrite lookup_app_l by (rewrite length_times_layout; lia).
    symmetry. exact Ht.
  - replace (16 * i + 8 + j)%nat with (16 * i + (8 + j))%nat by lia.
    rewrite (flat_map_lookup_chunk
               (fun q => doubleBE (getTime (time q)) ++ doubleBE (value q))
               16 ps i (8 + j) p); [|reflexivity|exact Hp|lia].
    rewrite lookup_app_r by (rewrite length_doubleBE; lia).
    rewrite length_doubleBE.
    rewrite lookup_app_r by (rewrite length_times_layout; lia).
    rewrite length_times_layout.
    replace (8 + j - 8)%nat with j by lia.
    replace (8 * length ps + 8 * i + j - 8 * length ps)%nat
      with (8 * i + j)%nat by lia.
    symmetry. exact Hv.
Qed.

(** Encoding a concatenation: the pairs layout is the concatenation of
    the two encodings; the sets layout puts the two timestamp blocks
    first and the two value blocks after them. *)
Theorem encoders_concat (pool : nat -> byte) (ps qs : list Point) :
  exists P Q T1 V1 T2 V2 : list cell,
    Format1.encodeBinaryPairs pool (Array_of ps) = Ok P /\
    Format1.encodeBinaryPairs pool (Array_of qs) = Ok Q /\
    Format1.encodeBinaryPairs pool (Array_of (ps ++ qs)) = Ok (P ++ Q) /\
    Format1.encodeBinarySets pool (Array_of ps) = Ok (T1 ++ V1) /\
    Format1.encodeBinarySets pool (Array_of qs) = Ok (T2 ++ V2) /\
    length T1 = length V1 /\ length T2 = length V2 /\
    Format1.encodeBinarySets pool (Array_of (ps ++ qs))
    = Ok (T1 ++ T2 ++ V1 ++ V2).
Proof.
  exists (map Written (pairs_layout ps)), (map Written (pairs_layout qs)),
         (map Written (times_layout ps)), (map Written (values_layout ps)),
         (map Written (times_layout qs)), (map Written (values_layout qs)).
  rewrite !encodeBinaryPairs_spec, !encodeBinarySets_spec.
  unfold sets_layout.
  rewrite pairs_layout_app, times_layout_app, values_layout_app.
  rewrite !map_app, <- !app_assoc.
  repeat split; len.
Qed.

Lemma doubleBE_inj (x y : number) :
  valid_number x = true -> valid_number y = true ->
  doubleBE x = doubleBE y -> x = y.
Proof.
  intros Hx Hy H.
  rewrite <- (decode_doubleBE x Hx), <- (decode_doubleBE y Hy), H.
  reflexivity.
Qed.

Lemma valid_point_eq (p q : Point) :
  valid_point p = true -> valid_point q = true ->
  doubleBE (getTime (time p)) = doubleBE (getTime (time q)) ->
  doubleBE (value p) = doubleBE (value q) ->
  p = q.
Proof.
  unfold valid_point. rewrite !andb_true_iff.
  intros [Hpt Hpv] [Hqt Hqv] Ht Hv.
  destruct p as [[tp] vp], q as [[tq] vq]. cbn [time value getTime] in *.
  rewrite (doubleBE_inj tp tq Hpt Hqt Ht), (doubleBE_inj vp vq Hpv Hqv Hv).
  reflexivity.
Qed.

Lemma pairs_layout_inj (ps qs : list Point) :
  Forall (fun p => valid_point p = true) ps ->
  Forall (fun p => valid_point p = true) qs ->
  pairs_layout ps = pairs_layout qs -> ps = qs.
Proof.
  intros Hps. revert qs.
  induction Hps as [|p ps Hp _ IH]; intros qs Hqs H.
  - destruct qs as [|q qs]; [reflexivity|].
    apply (f_equal length) in H. len.
  - destruct Hqs as [|q qs Hq Hqs].
    + apply (f_equal length) in H. len.
    + cbn [pairs_layout flat_map] in H.
      fold (pairs_layout ps) in H. fold (pairs_layout qs) in H.
      apply app_inj_1 in H; [|len]. destruct H as [Hhead Htail].
      apply app_inj_1 in Hhead; [|len]. destruct Hhead as [Ht Hv].
      rewrite (valid_point_eq p q Hp Hq Ht Hv), (IH qs Hqs Htail).
      reflexivity.
Qed.

Lemma sets_layout_inj (ps qs : list Point) :
  Forall (fun p => valid_point p = true) ps ->
  Forall (fun p => valid_point p = true) qs ->
  times_layout ps = times_layout qs ->
  values_layout ps = values_layout qs -> ps = qs.
Proof.
  intros Hps. revert qs.
  induction Hps as [|p ps Hp _ IH]; intros qs Hqs HT HV.
  - destruct qs as [|q qs]; [reflexivity|].
    apply (f_equal length) in HT. len.
  - destruct Hqs as [|q qs Hq Hqs].
    + apply (f_equal length) in HT. len.
    + cbn [times_layout values_layout flat_map] in HT, HV.
      fold (times_layout ps) in HT. fold (times_layout qs) in HT.
      fold (values_layout ps) in HV. fold (values_layout qs) in HV.
      apply app_inj_1 in HT; [|len]. destruct HT as [Ht HT].
      apply app_inj_1 in HV; [|len]. destruct HV as [Hv HV].
      rewrite (valid_point_eq p q Hp Hq Ht Hv), (IH qs Hqs HT HV).
      reflexivity.
Qed.

Lemma map_Written_inj (l k : list byte) :
  map Written l = map Written k -> l = k.
Proof.
  revert k. induction l as [|b l IH]; intros [|c k] H; try discriminate.
  - reflexivity.
  - cbn in H. injection H as -> H. rewrite (IH k H). reflexivity.
Qed.

(** Both layouts are lossless: two sequences of points (their numbers
    doubles) with the same pairs encoding, or the same sets encoding, are
    the same sequence. *)
Theorem encoders_injective (pool1 pool2 : nat -> byte) (ps qs : list Point) :
  Forall (fun p => valid_point p = true) ps ->
  Forall (fun p => valid_point p = true) qs ->
  Format1.encodeBinaryPairs pool1 (Array_of ps)
  = Format1.encodeBinaryPairs pool2 (Array_of qs)
  \/ Format1.encodeBinarySets pool1 (Array_of ps)
     = Format1.encodeBinarySets pool2 (Array_of qs) ->
  ps = qs.
Proof.
  intros Hps Hqs [H|H].
  - rewrite !encodeBinaryPairs_spec in H. injection H as H.
    apply map_Written_inj in H. apply pairs_layout_inj; assumption.
  - rewrite !encodeBinarySets_spec in H. injection H as H.
    apply map_Written_inj in H. unfold sets_layout in H.
    assert (Hlen : length ps = length qs).
    { apply (f_equal length) in H. len. }
    apply app_inj_1 in H; [|len]. destruct H as [HT HV].
    apply sets_layout_inj; assumption.
Qed.

(** An instance: one point written in two ways, encoded in memory of
    different contents. *)
Lemma encoders_injective_witness :
  [mkPoint (mkDate (canon basetime)) (Z2number (-2))]
  = [mkPoint (new_Date_ymd 2024 1 1)
             (Math_round (S754_finite true 5629499534213120 (-51)))].
Proof.
  apply (encoders_injective (pool_of x00) (pool_of xff)).
  - repeat constructor.
  - repeat constructor.
  - left. vm_compute. reflexivity.
Defined.

(** ** The binary route and the compression filter *)

(** The test vectors of RFC 4648 for "", "f", "fo", "foo", "foob",
    "fooba" and "foobar". *)
Example base64_known :
  base64 [] = ""%string
  /\ base64 [x66] = "Zg=="%string
  /\ base64 [x66; x6f] = "Zm8="%string
  /\ base64 [x66; x6f; x6f] = "Zm9v"%string
  /\ base64 [x66; x6f; x6f; x62] = "Zm9vYg=="%string
  /\ base64 [x66; x6f; x6f; x62; x61] = "Zm9vYmE="%string
  /\ base64 [x66; x6f; x6f; x62; x61; x72] = "Zm9vYmFy"%string.
Proof. repeat split; vm_compute; reflexivity. Qed.

Lemma base64_length_upto (n : nat) (bs : list byte) :
  (length bs <= n)%nat ->
  String.length (base64 bs) = (4 * ((length bs + 2) / 3))%nat.
Proof.
  revert bs. induction n as [|n IH]; intros bs Hn.
  - destruct bs; [reflexivity|cbn in Hn; lia].
  - destruct bs as [|a [|b [|c rest]]]; try reflexivity.
    cbn [base64 String.length length].
    rewrite IH by (cbn [length] in Hn; lia).
    replace (S (S (S (length rest))) + 2)%nat
      with (length rest + 2 + 1 * 3)%nat by lia.
    rewrite Nat.div_add by lia. lia.
Qed.

Lemma base64_length (bs : list byte) :
  String.length (base64 bs) = (4 * ((length bs + 2) / 3))%nat.
Proof. apply (base64_length_upto (length bs)). lia. Qed.

Lemma Forall_written (bs : list byte) :
  Forall (fun c => is_written c = true) (map Written bs).
Proof. induction bs as [|b bs IH]; constructor; [reflexivity|exact IH]. Qed.

(** What the handler sends for the [16 * n] bytes an encoder wrote. *)
Lemma binary_route_send (n : Z) (encoding : string) (bs : list byte) :
  0 <= n < 2 ^ 32 -> length bs = (16 * Z.to_nat n)%nat ->
  match (if String.eqb encoding "base64"
         then text ← Buffer_toString_base64 (map Written bs); Ok (Text text)
         else Ok (Binary (map Written bs))) with
  | Ok (Binary buf) =>
      0 <= n < 2 ^ 32 /\ encoding <> "base64"%string
      /\ length buf = (16 * Z.to_nat n)%nat
      /\ Forall (fun c => is_written c = true) buf
  | Ok (Text s) =>
      0 <= n < 25165823 /\ encoding = "base64"%string
      /\ String.length s = (4 * ((16 * Z.to_nat n + 2) / 3))%nat
  | Throw e =>
      (e = RangeError /\ (n < 0 \/ 2 ^ 32 <= n))
      \/ (e = ERR_STRING_TOO_LONG /\ 25165823 <= n < 2 ^ 32
          /\ encoding = "base64"%string)
  end.
Proof.
  intros Hn Hlen.
  destruct (String.eqb_spec encoding "base64") as [Henc|Henc].
  - unfold Buffer_toString_base64, MAX_STRING_LENGTH.
    rewrite length_map, Hlen.
    replace (Z.of_nat (16 * Z.to_nat n)) with (16 * n) by lia.
    pose proof (Z.div_mod (16 * n + 2) 3 ltac:(lia)) as Hdm.
    pose proof (Z.mod_pos_bound (16 * n + 2) 3 ltac:(lia)) as Hmod.
    destruct (Z.ltb_spec 536870888 (4 * ((16 * n + 2) / 3))) as [Hlong|Hfits];
      cbn [mbind result_bind].
    + right. split; [reflexivity|]. split; [lia|exact Henc].
    + split; [lia|]. split; [exact Henc|].
      rewrite base64_length, !length_map, Hlen. reflexivity.
  - split; [exact Hn|]. split; [exact Henc|].
    split; [rewrite length_map; exact Hlen|apply Forall_written].
Qed.

(** The binary route, for every count and whatever the two path
    segments.  It throws in two cases only: a RangeError when the count
    is not below [2^32] ([new Array]), and, for ['base64'], Node's
    [ERR_STRING_TOO_LONG] from 25165823 points on, where the text would
    be longer than the longest string.  Otherwise [raw] (any encoding
    but ['base64']) sends a buffer of sixteen bytes per point, every
    byte written, and ['base64'] sends a text of four characters per
    three bytes, rounded up.  The handler of
    [src/encoding-time-series-data.ts] is the same. *)
Theorem binary_route_result (pw : pow10) (rs : draws) (pool : nat -> byte)
    (n : Z) (structure encoding : string) :
  Format2.binary_route pw rs pool n structure encoding
  = Format1.binary_route pw rs pool n structure encoding
  /\ match Format1.binary_route pw rs pool n structure encoding with
     | Ok (Binary buf) =>
         0 <= n < 2 ^ 32 /\ encoding <> "base64"%string
         /\ length buf = (16 * Z.to_nat n)%nat
         /\ Forall (fun c => is_written c = true) buf
     | Ok (Text s) =>
         0 <= n < 25165823 /\ encoding = "base64"%string
         /\ String.length s = (4 * ((16 * Z.to_nat n + 2) / 3))%nat
     | Throw e =>
         (e = RangeError /\ (n < 0 \/ 2 ^ 32 <= n))
         \/ (e = ERR_STRING_TOO_LONG /\ 25165823 <= n < 2 ^ 32
             /\ encoding = "base64"%string)
     end.
Proof.
  split; [reflexivity|].
  unfold Format1.binary_route.
  destruct (Z.lt_ge_cases n 0) as [Hneg|Hnn];
    [|destruct (Z.lt_ge_cases n (2 ^ 32)) as [Hlt|Hge]].
  - unfold Format1.generatePoints, new_Array.
    destruct (Z.leb_spec 0 n) as [H|_]; [lia|]. cbn.
    left. split; [reflexivity|lia].
  - rewrite generatePoints_spec, points_upto_Array_of by lia.
    cbn [mbind result_bind].
    set (ps := map (point_at rs (Math_pow10 pw 5)) (seq 0 (Z.to_nat n))).
    assert (Hps : length ps = Z.to_nat n)
      by (unfold ps; rewrite length_map, length_seq; reflexivity).
    destruct (String.eqb structure "pairs");
      rewrite ?encodeBinaryPairs_spec, ?encodeBinarySets_spec;
      cbn [mbind result_bind];
      apply binary_route_send; try lia.
    + rewrite length_pairs_layout, Hps. reflexivity.
    + rewrite length_sets_layout, Hps. reflexivity.
  - unfold Format1.generatePoints, new_Array.
    destruct (Z.leb_spec 0 n) as [_|H]; [|lia].
    destruct (Z.ltb_spec n (2 ^ 32)) as [H|_]; [lia|].
    cbn. left. split; [reflexivity|lia].
Qed.

(** The longest base64 text Node makes has 536870872 characters, for
    25165822 points; for one point more it would have 536870892, four
    more than the longest string. *)
Example binary_route_longest_text :
  4 * ((16 * 25165822 + 2) / 3) = 536870872
  /\ 4 * ((16 * 25165823 + 2) / 3) = 536870892
  /\ MAX_STRING_LENGTH = 536870888.
Proof. repeat split. Qed.

(** The filter refuses a request exactly when it carries an
    [accept-encoding] header in which [gzip] occurs nowhere (the empty
    header included); a request without the header passes. *)
Theorem compression_filter_refuses (accept_encoding : option string) :
  Format1.compression_filter accept_encoding = false
  <-> exists h : string,
        accept_encoding = Some h
        /\ forall k : nat, substring k 4 h <> "gzip"%string.
Proof.
  unfold Format1.compression_filter, String_indexOf.
  destruct accept_encoding as [h|].
  - destruct (String.index 0 "gzip" h) as [k|] eqn:Hidx.
    + split.
      * destruct (Z.eqb_spec (Z.of_nat k) (-1)) as [H|_]; [lia|]. discriminate.
      * intros (h' & [= <-] & Hno). exfalso. apply (Hno k).
        apply (index_correct1 0 k "gzip" h Hidx).
    + split; [|reflexivity]. intros _. exists h. split; [reflexivity|].
      intros k. apply (index_correct3 0 k "gzip" h Hidx); [discriminate|lia].
  - split; [discriminate|]. intros (h & [=] & _).
Qed.

(** The headers the measurements send: an empty one is refused, [gzip]
    passes; so does a request with no header. *)
Example compression_filter_known :
  Format1.compression_filter (Some ""%string) = false
  /\ Format1.compression_filter (Some "gzip"%string) = true
  /\ Format1.compression_filter (Some "deflate, gzip, br"%string) = true
  /\ Format1.compression_filter (Some "GZIP"%string) = false
  /\ Format1.compression_filter None = true.
Proof. repeat split; vm_compute; reflexivity. Qed.

(** ** Every result of a division is a double *)

Lemma Zdigits2_pos (m : Z) : 0 < m -> Zdigits2 m = Z.log2 m + 1.
Proof. destruct m as [|p|p]; try lia. intros _. apply Zdigits2_log2. Qed.

Lemma Zdigits2_nonneg (m : Z) : 0 <= Zdigits2 m.
Proof. destruct m; cbn; lia. Qed.

Lemma Zdigits2_mono (a b : Z) : 0 <= a <= b -> Zdigits2 a <= Zdigits2 b.
Proof.
  intros [Ha Hab]. destruct (Z.eq_dec a 0) as [->|Hne].
  - apply Zdigits2_nonneg.
  - rewrite !Zdigits2_pos by lia.
    pose proof (Z.log2_le_mono a b Hab). lia.
Qed.

Lemma fexp_mono (a b : Z) : a <= b -> fexp prec emax a <= fexp prec emax b.
Proof. unfold fexp, emin, prec, emax. lia. Qed.

Lemma shr_1_m (r : shr_record) :
  0 <= shr_m r -> shr_m (shr_1 r) = shr_m r / 2.
Proof.
  destruct r as [m rr ss]. cbn [shr_m]. intros Hm.
  rewrite <- Z.div2_div.
  destruct m as [|[p|p|]|p]; try reflexivity. lia.
Qed.

Lemma iter_shr_1_m (n : nat) (r : shr_record) :
  0 <= shr_m r ->
  shr_m (Nat.iter n shr_1 r) = shr_m r / 2 ^ Z.of_nat n.
Proof.
  intros Hm. induction n as [|n IH].
  - cbn. rewrite Z.div_1_r. reflexivity.
  - rewrite Nat.iter_succ. rewrite shr_1_m.
    + rewrite IH, Nat2Z.inj_succ, Z.pow_succ_r by lia.
      rewrite Z.div_div by lia. f_equal. lia.
    + rewrite IH. apply Z.div_pos; [exact Hm|]. apply Z.pow_pos_nonneg; lia.
Qed.

Lemma shr_m_shr (r : shr_record) (e n : Z) :
  0 <= shr_m r -> 0 <= n ->
  shr_m (fst (shr r e n)) = shr_m r / 2 ^ n /\ snd (shr r e n) = e + n.
Proof.
  intros Hm Hn. destruct n as [|p|p]; try lia.
  - cbn [shr fst snd]. rewrite Z.div_1_r. split; [reflexivity|lia].
  - cbn [shr fst snd]. rewrite iter_pos_nat, iter_shr_1_m by exact Hm.
    rewrite positive_nat_Z. split; reflexivity.
Qed.

Lemma Zdigits2_div_pow2 (m n : Z) :
  0 <= n -> 0 < m / 2 ^ n -> Zdigits2 (m / 2 ^ n) = Zdigits2 m - n.
Proof.
  intros Hn Hq.
  assert (Hp : 0 < 2 ^ n) by (apply Z.pow_pos_nonneg; lia).
  assert (Hm : 0 < m).
  { destruct (Z.lt_ge_cases 0 m) as [H|H]; [exact H|].
    assert (m / 2 ^ n <= 0) by (apply Z.div_le_upper_bound; nia). lia. }
  rewrite !Zdigits2_pos by assumption.
  rewrite <- Z.shiftr_div_pow2 by exact Hn.
  rewrite Z.log2_shiftr by exact Hm.
  assert (n <= Z.log2 m).
  { apply Z.log2_le_pow2; [exact Hm|].
    destruct (Z.lt_ge_cases m (2 ^ n)) as [H|H]; [|exact H].
    rewrite Z.div_small in Hq by lia. lia. }
  lia.
Qed.

(** After the shift of [shr_fexp] the mantissa has the digits its
    exponent asks for. *)
Lemma shr_fexp_canonical (m e : Z) (l : location) :
  0 <= m -> e <= fexp prec emax (Zdigits2 m + e) ->
  let r := shr_fexp prec emax m e l in
  0 <= shr_m (fst r)
  /\ fexp prec emax (Zdigits2 (shr_m (fst r)) + snd r) = snd r.
Proof.
  intros Hm He. cbv zeta. unfold shr_fexp.
  set (n := fexp prec emax (Zdigits2 m + e) - e).
  assert (Hn : 0 <= n) by (unfold n; lia).
  assert (Hr : shr_m (shr_record_of_loc m l) = m)
    by (destruct l as [|[ | | ]]; reflexivity).
  destruct (shr_m_shr (shr_record_of_loc m l) e n) as [Hq Hs];
    [rewrite Hr; exact Hm|exact Hn|].
  rewrite Hq, Hs, Hr.
  assert (Hp : 0 < 2 ^ n) by (apply Z.pow_pos_nonneg; lia).
  assert (Hq0 : 0 <= m / 2 ^ n) by (apply Z.div_pos; lia).
  split; [exact Hq0|].
  destruct (Z.eq_dec (m / 2 ^ n) 0) as [Hz|Hnz].
  - rewrite Hz. cbn [Zdigits2].
    assert (Hd : Zdigits2 m <= n).
    { destruct (Z.eq_dec m 0) as [->|Hm0]; [cbn; lia|].
      rewrite Zdigits2_pos by lia.
      assert (m < 2 ^ n).
      { destruct (Z.lt_ge_cases m (2 ^ n)) as [H|H]; [exact H|].
        assert (1 <= m / 2 ^ n) by (apply Z.div_le_lower_bound; lia). lia. }
      assert (Z.log2 m < n) by (apply Z.log2_lt_pow2; lia). lia. }
    unfold n in *. unfold fexp, emin, prec, emax in *. lia.
  - rewrite Zdigits2_div_pow2 by lia.
    replace (Zdigits2 m - n + (e + n)) with (Zdigits2 m + e) by lia.
    unfold n. lia.
Qed.

Lemma round_nearest_even_bounds (m : Z) (l : location) :
  m <= round_nearest_even m l <= m + 1.
Proof.
  destruct l as [|[ | | ]]; cbn [round_nearest_even]; try lia.
  destruct (Z.even m); lia.
Qed.

(** Rounding a mantissa that has at least the digits its exponent asks
    for gives a double. *)
Lemma binary_round_aux_valid (s : bool) (m e : Z) (l : location) :
  0 <= m -> e <= fexp prec emax (Zdigits2 m + e) ->
  valid_number (binary_round_aux prec emax s m e l) = true.
Proof.
  intros Hm He. unfold binary_round_aux.
  pose proof (shr_fexp_canonical m e l Hm He) as H1. cbv zeta in H1.
  destruct (shr_fexp prec emax m e l) as [mrs' e'].
  cbn [fst snd] in H1. destruct H1 as [Hm' He'].
  set (m1 := round_nearest_even (shr_m mrs') (loc_of_shr_record mrs')).
  pose proof (round_nearest_even_bounds (shr_m mrs') (loc_of_shr_record mrs'))
    as Hb. fold m1 in Hb.
  assert (H2 : e' <= fexp prec emax (Zdigits2 m1 + e')).
  { rewrite <- He' at 1. apply fexp_mono.
    pose proof (Zdigits2_mono (shr_m mrs') m1 ltac:(lia)). lia. }
  pose proof (shr_fexp_canonical m1 e' loc_Exact ltac:(lia) H2) as H3.
  cbv zeta in H3.
  destruct (shr_fexp prec emax m1 e' loc_Exact) as [mrs'' e''].
  cbn [fst snd] in H3. destruct H3 as [Hm'' He''].
  destruct (shr_m mrs'') as [|p|p]; try reflexivity.
  destruct (Z.leb_spec e'' (emax - prec)) as [Hle|Hgt]; [|reflexivity].
  unfold valid_number, valid_binary, bounded, canonical_mantissa.
  cbn [Zdigits2] in He''. rewrite He'', Z.eqb_refl.
  apply Z.leb_le in Hle. rewrite Hle. reflexivity.
Qed.

Lemma log2_div_lower (M m2 t : Z) :
  0 < m2 -> 0 <= t -> 2 ^ t * m2 <= M -> t + 1 <= Zdigits2 (M / m2).
Proof.
  intros Hm2 Ht H.
  assert (Hq : 2 ^ t <= M / m2) by (apply Z.div_le_lower_bound; lia).
  assert (0 < 2 ^ t) by (apply Z.pow_pos_nonneg; lia).
  rewrite Zdigits2_pos by lia.
  assert (t <= Z.log2 (M / m2)) by (apply Z.log2_le_pow2; lia). lia.
Qed.

(** The quotient [SFdiv] hands to rounding has enough digits. *)
Lemma SFdiv_core_digits (m1 m2 : positive) (e1 e2 : Z) :
  let '(q, e', _) := SFdiv_core_binary prec emax (Zpos m1) e1 (Zpos m2) e2 in
  0 <= q /\ e' <= fexp prec emax (Zdigits2 q + e').
Proof.
  unfold SFdiv_core_binary.
  set (d1 := Zdigits2 (Zpos m1)). set (d2 := Zdigits2 (Zpos m2)).
  set (E := d1 + e1 - (d2 + e2)).
  set (e' := Z.min (fexp prec emax E) (e1 - e2)).
  set (s := e1 - e2 - e').
  assert (Hs : 0 <= s) by (unfold s, e'; lia).
  set (M := match s with
            | 0 => Zpos m1
            | Zpos _ => Z.shiftl (Zpos m1) s
            | Zneg _ => 0
            end).
  assert (HM : M = Zpos m1 * 2 ^ s).
  { unfold M. destruct s as [|p|p]; try lia.
    apply Z.shiftl_mul_pow2. lia. }
  clearbody M.
  pose proof (Z_div_mod M (Zpos m2) ltac:(lia)) as Hdm.
  unfold Z.div in *.
  destruct (Z.div_eucl M (Zpos m2)) as [q r] eqn:Hqr.
  assert (Hq : q = M / Zpos m2) by (unfold Z.div; rewrite Hqr; reflexivity).
  assert (Hp : 0 < 2 ^ s) by (apply Z.pow_pos_nonneg; lia).
  assert (Hq0 : 0 <= q) by (rewrite Hq; apply Z.div_pos; nia).
  split; [exact Hq0|].
  assert (Hd1 : d1 = Z.log2 (Zpos m1) + 1) by apply Zdigits2_log2.
  assert (Hd2 : d2 = Z.log2 (Zpos m2) + 1) by apply Zdigits2_log2.
  pose proof (Z.log2_spec (Zpos m1) ltac:(lia)) as [Hl1 _].
  pose proof (Z.log2_spec (Zpos m2) ltac:(lia)) as [_ Hu2].
  pose proof (Z.log2_nonneg (Zpos m1)) as Hn1.
  pose proof (Z.log2_nonneg (Zpos m2)) as Hn2.
  replace (Z.succ (Z.log2 (Zpos m2))) with d2 in Hu2 by lia.
  replace (Z.log2 (Zpos m1)) with (d1 - 1) in Hl1 by lia.
  (* 2 ^ (d1 - 1 + s) <= M and Zpos m2 < 2 ^ d2 *)
  assert (HMl : 2 ^ (d1 - 1 + s) <= M).
  { rewrite Z.pow_add_r by lia. rewrite HM. nia. }
  set (t := d1 - 1 + s - d2).
  assert (Hdq : q = 0 \/ t + 1 <= Zdigits2 q).
  { destruct (Z.eq_dec q 0) as [Hz|Hnz]; [left; exact Hz|right].
    destruct (Z.lt_ge_cases t 0) as [Ht|Ht].
    - rewrite Zdigits2_pos by lia. pose proof (Z.log2_nonneg q). lia.
    - rewrite Hq. apply log2_div_lower; [lia|exact Ht|].
      replace (d1 - 1 + s) with (t + d2) in HMl by (unfold t; lia).
      rewrite Z.pow_add_r in HMl by lia.
      assert (0 < 2 ^ t) by (apply Z.pow_pos_nonneg; lia). nia. }
  assert (HeE : e' <= fexp prec emax E) by (unfold e'; lia).
  destruct Hdq as [Hz|Hdq].
  - (* the quotient is zero: the divisor is larger *)
    rewrite Hz. cbn [Zdigits2].
    assert (HMu : M < Zpos m2).
    { destruct (Z.lt_ge_cases M (Zpos m2)) as [H|H]; [exact H|].
      assert (1 <= M / Zpos m2) by (apply Z.div_le_lower_bound; lia). lia. }
    assert (Hlt : d1 - 1 + s < d2).
    { apply (Z.pow_lt_mono_r_iff 2); lia. }
    unfold fexp, emin, prec, emax in *. unfold E, s in *. lia.
  - apply Z.le_trans with (1 := HeE). apply fexp_mono.
    unfold E, t, s in *. lia.
Qed.

(** The result of a division is a double, whatever the operands. *)
Lemma fdiv_valid (x y : number) : valid_number (fdiv x y) = true.
Proof.
  destruct x as [sx|sx| |sx mx ex], y as [sy|sy| |sy my ey]; try reflexivity.
  unfold fdiv, SFdiv.
  pose proof (SFdiv_core_digits mx my ex ey) as H.
  destruct (SFdiv_core_binary prec emax (Zpos mx) ex (Zpos my) ey)
    as [[q e'] l].
  destruct H as [Hq He]. apply binary_round_aux_valid; assumption.
Qed.

Lemma canon_valid (z : Z) : 0 < z < 2 ^ 53 -> valid_number (canon z) = true.
Proof.
  intros Hz. destruct z as [|p|p]; try lia.
  pose proof (log2_lt_53 (Zpos p) Hz) as Hl.
  destruct (canon_mantissa p ltac:(lia)) as [_ Hc52].
  unfold canon, valid_number, valid_binary, bounded, canonical_mantissa.
  rewrite Zdigits2_log2, Hc52.
  unfold fexp, emin, prec, emax.
  apply andb_true_iff. split; [apply Z.eqb_eq|apply Z.leb_le]; lia.
Qed.

Lemma time_after_valid (k : nat) :
  valid_number (getTime (time_after k)) = true.
Proof.
  destruct (Z.le_gt_cases (Z.of_nat k) lastIndex) as [Hle|Hgt].
  - rewrite time_after_canon by exact Hle. cbn [getTime].
    apply canon_valid. unfold basetime, hour, lastIndex in *. lia.
  - rewrite time_after_invalid_from by lia. reflexivity.
Qed.

Lemma point_at_valid (rs : draws) (power : number) (i : nat) :
  valid_point (point_at rs power i) = true.
Proof.
  unfold valid_point, point_at. cbn [time value].
  rewrite time_after_valid, fdiv_valid. reflexivity.
Qed.

(** ** Generated points through the encoders *)

(** Every number [generatePoints] returns is a double, whatever the
    draws: a timestamp is an integer of milliseconds or NaN, a value is
    the result of a division. *)
Theorem generatePoints_doubles (pw : pow10) (rs : draws) (n d : Z) :
  match Format1.generatePoints pw rs n d with
  | Ok pts =>
      Forall (fun slot => match slot with
                          | Some p => valid_point p = true
                          | None => False
                          end) pts
  | Throw _ => True
  end.
Proof.
  destruct (Z.lt_ge_cases n 0) as [Hneg|Hnn];
    [|destruct (Z.lt_ge_cases n (2 ^ 32)) as [Hlt|Hge]].
  - unfold Format1.generatePoints, new_Array.
    destruct (Z.leb_spec 0 n) as [H|_]; [lia|]. exact I.
  - rewrite generatePoints_spec by lia. unfold points_upto.
    apply Forall_forall. intros slot Hin.
    apply list_elem_of_In, in_map_iff in Hin. destruct Hin as (i & <- & _).
    apply point_at_valid.
  - unfold Format1.generatePoints, new_Array.
    destruct (Z.leb_spec 0 n) as [_|H]; [|lia].
    destruct (Z.ltb_spec n (2 ^ 32)) as [H|_]; [lia|]. exact I.
Qed.

Lemma layouts_read (ps : list Point) (i : nat) (p : Point) :
  ps !! i = Some p -> valid_point p = true ->
  readDoubleBE (16 * i) (map Written (pairs_layout ps))
  = Ok (getTime (time p))
  /\ readDoubleBE (16 * i + 8) (map Written (pairs_layout ps))
     = Ok (value p)
  /\ readDoubleBE (8 * i) (map Written (sets_layout ps))
     = Ok (getTime (time p))
  /\ readDoubleBE (8 * length ps + 8 * i) (map Written (sets_layout ps))
     = Ok (value p).
Proof.
  intros Hp Hvalid. unfold valid_point in Hvalid.
  apply andb_true_iff in Hvalid. destruct Hvalid as [Ht Hv].
  assert (Hi : length (take i ps) = i).
  { apply length_take_le. apply lookup_lt_Some in Hp. lia. }
  rewrite <- (take_drop_middle ps i p Hp).
  set (done := take i ps) in *. set (todo := drop (S i) ps).
  clearbody done todo. unfold sets_layout.
  rewrite pairs_layout_app, times_layout_app, values_layout_app.
  change (pairs_layout (p :: todo))
    with ((doubleBE (getTime (time p)) ++ doubleBE (value p))
            ++ pairs_layout todo).
  change (times_layout (p :: todo))
    with (doubleBE (getTime (time p)) ++ times_layout todo).
  change (values_layout (p :: todo))
    with (doubleBE (value p) ++ values_layout todo).
  rewrite !map_app, <- !app_assoc.
  split; [|split; [|split]].
  - apply readDoubleBE_at; [len|exact Ht].
  - rewrite (app_assoc (map Written (pairs_layout done))).
    apply readDoubleBE_at; [len|exact Hv].
  - apply readDoubleBE_at; [len|exact Ht].
  - rewrite (app_assoc (map Written (times_layout done))).
    rewrite (app_assoc _ (map Written (times_layout todo))).
    rewrite (app_assoc _ (map Written (values_layout done))).
    apply readDoubleBE_at; [len|exact Hv].
Qed.

(** Generating and encoding loses nothing: for every count below
    [2^32], whatever the draws, reading the doubles back from either
    layout at the offsets of point [i] gives the timestamp and the value
    [generatePoints] produced for it. *)
Theorem generated_points_round_trip (pw : pow10) (rs : draws)
    (pool : nat -> byte) (n d : Z) (i : nat) :
  0 <= n < 2 ^ 32 -> (i < Z.to_nat n)%nat ->
  exists (points : list (option Point)) (p : Point) (pairs sets : list cell),
    Format1.generatePoints pw rs n d = Ok points /\
    points !! i = Some (Some p) /\
    Format1.encodeBinaryPairs pool points = Ok pairs /\
    Format1.encodeBinarySets pool points = Ok sets /\
    readDoubleBE (16 * i) pairs = Ok (getTime (time p)) /\
    readDoubleBE (16 * i + 8) pairs = Ok (value p) /\
    readDoubleBE (8 * i) sets = Ok (getTime (time p)) /\
    readDoubleBE (8 * Z.to_nat n + 8 * i) sets = Ok (value p).
Proof.
  intros Hn Hi.
  set (ps := map (point_at rs (Math_pow10 pw d)) (seq 0 (Z.to_nat n))).
  assert (Hlen : length ps = Z.to_nat n)
    by (unfold ps; rewrite length_map, length_seq; reflexivity).
  assert (Hp : ps !! i = Some (point_at rs (Math_pow10 pw d) i)).
  { unfold ps. change (map ?f ?l) with (f <$> l).
    rewrite list_lookup_fmap, lookup_seq_lt by exact Hi. reflexivity. }
  exists (Array_of ps), (point_at rs (Math_pow10 pw d) i),
         (map Written (pairs_layout ps)), (map Written (sets_layout ps)).
  split; [rewrite generatePoints_spec by lia; f_equal;
          apply points_upto_Array_of|].
  split; [unfold ps; rewrite <- points_upto_Array_of;
          apply points_upto_lookup; exact Hi|].
  split; [apply encodeBinaryPairs_spec|].
  split; [apply encodeBinarySets_spec|].
  rewrite <- Hlen.
  apply layouts_read; [exact Hp|apply point_at_valid].
Qed.

(** An instance: the second of three points, two decimal places. *)
Lemma generated_points_round_trip_witness :
  exists (points : list (option Point)) (p : Point) (pairs sets : list cell),
    Format1.generatePoints exact_pow10 draws_075 3 2 = Ok points /\
    points !! 1%nat = Some (Some p) /\
    Format1.encodeBinaryPairs (pool_of xff) points = Ok pairs /\
    Format1.encodeBinarySets (pool_of xff) points = Ok sets /\
    readDoubleBE (16 * 1) pairs = Ok (getTime (time p)) /\
    readDoubleBE (16 * 1 + 8) pairs = Ok (value p) /\
    readDoubleBE (8 * 1) sets = Ok (getTime (time p)) /\
    readDoubleBE (8 * Z.to_nat 3 + 8 * 1) sets = Ok (value p).
Proof.
  apply (generated_points_round_trip exact_pow10 draws_075 (pool_of xff)
           3 2 1).
  - lia.
  - change (Z.to_nat 3) with 3%nat. lia.
Defined.
